(** * extract_changelog.py: one version section out of CHANGELOG.md

    A shallow embedding of [scripts/extract_changelog.py] and of the parts
    of the Python runtime it calls ([str.strip], [str.rstrip],
    [str.startswith], [str.splitlines], [str.join], [re.escape],
    [re.compile], [Pattern.match]), followed by the properties of the
    extraction that the specification states. *)

From Stdlib Require Import List Bool Arith NArith ZArith Lia String Ascii.
Import ListNotations.

Set Implicit Arguments.

(* ================================================================== *)
(** ** Text *)
(* ================================================================== *)

(** A Python [str] is a sequence of Unicode code points. *)
Definition char := N.
Definition str := list char.

(** A literal of the source, as code points. *)
Definition lit (s : string) : str :=
  List.map N_of_ascii (list_ascii_of_string s).

Definition ch (a : ascii) : char := N_of_ascii a.

Module Str.

Local Open Scope N_scope.

Fixpoint eqb (a b : str) : bool :=
  match a, b with
  | [], [] => true
  | x :: a', y :: b' => N.eqb x y && eqb a' b'
  | _, _ => false
  end.

(** [c.isspace()] for one code point: the set CPython's
    [_PyUnicode_IsWhitespace] accepts.  [str.strip], [str.rstrip] and the
    [\s] class of a [str] pattern all use it. *)
Definition isspace (c : char) : bool :=
  ((9 <=? c) && (c <=? 13))          (* \t \n \v \f \r *)
  || ((28 <=? c) && (c <=? 32))      (* FS GS RS US and the space *)
  || (c =? 133) || (c =? 160)        (* NEL, no-break space *)
  || (c =? 5760)                     (* U+1680 *)
  || ((8192 <=? c) && (c <=? 8202))  (* U+2000 .. U+200A *)
  || (c =? 8232) || (c =? 8233)      (* U+2028, U+2029 *)
  || (c =? 8239) || (c =? 8287)      (* U+202F, U+205F *)
  || (c =? 12288).                   (* U+3000 *)

(** [s.lstrip()]: drop code points from the left while they are
    whitespace. *)
Fixpoint lstrip (s : str) : str :=
  match s with
  | [] => []
  | c :: rest => if isspace c then lstrip rest else s
  end.

(** [s.rstrip()]: the same scan from the right end. *)
Definition rstrip (s : str) : str := rev (lstrip (rev s)).

(** [s.strip()] *)
Definition strip (s : str) : str := lstrip (rstrip s).

(** [s.startswith(prefix)] *)
Fixpoint startswith (s prefix : str) {struct prefix} : bool :=
  match prefix with
  | [] => true
  | p :: prefix' =>
      match s with
      | [] => false
      | c :: s' => N.eqb c p && startswith s' prefix'
      end
  end.

(** [sep.join(parts)] *)
Fixpoint join (sep : str) (parts : list str) : str :=
  match parts with
  | [] => []
  | [x] => x
  | x :: rest => x ++ sep ++ join sep rest
  end.

(** The line boundaries of [str.splitlines]: \n, \r, \v, \f, FS, GS, RS,
    NEL, U+2028 and U+2029 (and \r\n, which counts as one). *)
Definition islinebreak (c : char) : bool :=
  ((10 <=? c) && (c <=? 13))
  || ((28 <=? c) && (c <=? 30))
  || (c =? 133) || (c =? 8232) || (c =? 8233).

(** The loop of [str.splitlines()] (keepends off): [cur] is the line
    being collected.  A line break ends the current line; what is left at
    the end of the text is a line only when it is not empty. *)
Fixpoint splitlines_from (cur : str) (s : str) : list str :=
  match s with
  | [] => match cur with [] => [] | _ => [cur] end
  | c :: rest =>
      if islinebreak c then
        if c =? 13 then
          match rest with
          | d :: rest' =>
              if d =? 10 then cur :: splitlines_from [] rest'
              else cur :: splitlines_from [] rest
          | [] => cur :: splitlines_from [] rest
          end
        else cur :: splitlines_from [] rest
      else splitlines_from (cur ++ [c]) rest
  end.

Definition splitlines (s : str) : list str := splitlines_from [] s.

End Str.

(* ================================================================== *)
(** ** The [re] module, as far as the script uses it *)
(* ================================================================== *)

Module Re.

Local Open Scope N_scope.

(** [re.escape(pattern)]: CPython's table [_special_chars_map] puts a
    backslash before each of
    [( ) [ ] { } ? * + - | ^ $ \ . & ~ #], the space and
    [\t \n \r \v \f]; every other code point stays as it is. *)
Definition special_chars : str :=
  lit "()[]{}?*+-|^$\.&~# " ++ [9; 10; 13; 11; 12].

Definition is_special (c : char) : bool :=
  existsb (N.eqb c) special_chars.

Definition escape (pattern : str) : str :=
  flat_map (fun c => if is_special c then [ch "\"; c] else [c]) pattern.

(** Parsed patterns.  [Repeat q greedy r] is [r*], [r+] or [r?], and its
    lazy form when [greedy] is off; [Space neg] is [\s] ([\S] when
    [neg]); [Group] is a parenthesis, capturing or not. *)
Inductive quant := Star | Plus | Opt.

Inductive regex :=
| Eps
| Lit (c : char)
| AnyChar
| Space (neg : bool)
| Bol
| Eol
| Cat (r1 r2 : regex)
| Alt (r1 r2 : regex)
| Repeat (q : quant) (greedy : bool) (r : regex)
| Group (r : regex).

(** The parser keeps, for the group it is in, the alternatives that are
    complete and the items of the current one, both latest first. *)
Record frame := { alts : list regex; items : list regex }.

Definition empty_frame : frame := {| alts := []; items := [] |}.

Definition push (a : regex) (f : frame) : frame :=
  {| alts := alts f; items := a :: items f |}.

Definition seq_of (its : list regex) : regex :=
  fold_right Cat Eps (rev its).

Fixpoint alt_of (rs : list regex) : regex :=
  match rs with
  | [] => Eps
  | [r] => r
  | r :: rest => Alt r (alt_of rest)
  end.

Definition close (f : frame) : regex :=
  alt_of (rev (seq_of (items f) :: alts f)).

(** What follows a backslash.  A backslash before a code point that is
    not an ASCII letter or digit stands for that code point; [\s] and
    [\S] are the whitespace class, [\a \f \n \r \t \v] the control
    characters.  The other letters and the digits ([\d], [\w], [\b],
    [\A], [\Z], [\x..], back references) are not part of this model. *)
Definition is_ascii_alnum (c : char) : bool :=
  ((48 <=? c) && (c <=? 57)) || ((65 <=? c) && (c <=? 90))
  || ((97 <=? c) && (c <=? 122)).

Definition escaped (e : char) : option regex :=
  if e =? ch "s" then Some (Space false)
  else if e =? ch "S" then Some (Space true)
  else if e =? ch "a" then Some (Lit 7)
  else if e =? ch "f" then Some (Lit 12)
  else if e =? ch "n" then Some (Lit 10)
  else if e =? ch "r" then Some (Lit 13)
  else if e =? ch "t" then Some (Lit 9)
  else if e =? ch "v" then Some (Lit 11)
  else if is_ascii_alnum e then None
  else Some (Lit e).

(** A quantifier applies to the item before it.  There must be one, it
    must not be an anchor, and it must not be a quantified item already,
    except that [?] after a greedy quantifier makes it lazy. *)
Definition quantify (c : char) (f : frame) : option frame :=
  match items f with
  | [] => None
  | Bol :: _ | Eol :: _ => None
  | Repeat q true r :: its =>
      if c =? ch "?"
      then Some {| alts := alts f; items := Repeat q false r :: its |}
      else None
  | Repeat _ false _ :: _ => None
  | a :: its =>
      let q := if c =? ch "*" then Star
               else if c =? ch "+" then Plus else Opt in
      Some {| alts := alts f; items := Repeat q true a :: its |}
  end.

(** The pattern parser, one code point at a time, with the enclosing
    groups on [stack].  [None] is [re.error], or a construct outside the
    fragment modelled here: a character set [[...]], a counted repeat
    [{m,n}], a possessive quantifier, an extension [(?...)] other than
    [(?:...)], and the escapes listed above. *)
Fixpoint parse (p : str) (cur : frame) (stack : list frame)
  : option regex :=
  match p with
  | [] =>
      match stack with
      | [] => Some (close cur)
      | _ :: _ => None
      end
  | c :: rest =>
      if c =? ch "\" then
        match rest with
        | [] => None
        | e :: rest' =>
            match escaped e with
            | Some a => parse rest' (push a cur) stack
            | None => None
            end
        end
      else if c =? ch "(" then
        match rest with
        | q :: rest1 =>
            if q =? ch "?" then
              match rest1 with
              | k :: rest2 =>
                  if k =? ch ":"
                  then parse rest2 empty_frame (cur :: stack)
                  else None
              | [] => None
              end
            else parse rest empty_frame (cur :: stack)
        | [] => None
        end
      else if c =? ch ")" then
        match stack with
        | [] => None
        | outer :: stack' => parse rest (push (Group (close cur)) outer) stack'
        end
      else if c =? ch "|" then
        parse rest {| alts := seq_of (items cur) :: alts cur; items := [] |}
              stack
      else if (c =? ch "*") || (c =? ch "+") || (c =? ch "?") then
        match quantify c cur with
        | Some cur' => parse rest cur' stack
        | None => None
        end
      else if c =? ch "." then parse rest (push AnyChar cur) stack
      else if c =? ch "^" then parse rest (push Bol cur) stack
      else if c =? ch "$" then parse rest (push Eol cur) stack
      else if (c =? ch "[") || (c =? ch "{") then None
      else parse rest (push (Lit c) cur) stack
  end.

(** [re.compile(pattern)], no flags. *)
Definition compile (pattern : str) : option regex :=
  parse pattern empty_frame [].

Local Close Scope N_scope.

(** The positions reachable from [i] by zero or more rounds of [step];
    a round that does not advance adds nothing.  Every round moves
    forward inside the subject, so its length bounds their number. *)
Fixpoint closure (fuel : nat) (step : nat -> list nat) (i : nat)
  : list nat :=
  i :: match fuel with
       | O => []
       | S fuel' =>
           flat_map (closure fuel' step)
                    (filter (fun j => i <? j) (step i))
       end.

(** [ends r s i]: the positions at which a match of [r] that starts at
    position [i] of the subject [s] can end.  No flag is set: [^]
    matches at the start of the subject only, [$] at its end or before a
    final newline, [.] everything but a newline. *)
Fixpoint ends (r : regex) (s : str) (i : nat) : list nat :=
  match r with
  | Eps => [i]
  | Lit c =>
      match nth_error s i with
      | Some d => if N.eqb d c then [S i] else []
      | None => []
      end
  | AnyChar =>
      match nth_error s i with
      | Some d => if N.eqb d 10 then [] else [S i]
      | None => []
      end
  | Space neg =>
      match nth_error s i with
      | Some d => if xorb neg (Str.isspace d) then [S i] else []
      | None => []
      end
  | Bol => if i =? 0 then [i] else []
  | Eol =>
      if i =? List.length s then [i]
      else if (S i =? List.length s) && Str.eqb (skipn i s) [10%N] then [i]
      else []
  | Cat r1 r2 => flat_map (ends r2 s) (ends r1 s i)
  | Alt r1 r2 => ends r1 s i ++ ends r2 s i
  | Repeat Star _ r' => closure (List.length s) (ends r' s) i
  | Repeat Plus _ r' =>
      flat_map (closure (List.length s) (ends r' s)) (ends r' s i)
  | Repeat Opt _ r' => i :: ends r' s i
  | Group r' => ends r' s i
  end.

(** [pattern.match(s)] is a match object, which is true, when some match
    starts at position 0, and [None] otherwise. *)
Definition matches (r : regex) (s : str) : bool :=
  match ends r s 0 with
  | [] => false
  | _ :: _ => true
  end.

End Re.

(* ================================================================== *)
(** ** The process: arguments, the file store, the output streams *)
(* ================================================================== *)

Inductive stream := Stdout | Stderr.

(** What a run does to the outside, in order. *)
Inductive event :=
| ReadText (path : string)
| Write (f : stream) (data : str).

(** Exceptions that [main] does not catch. *)
Inductive exn := OSError | ReError | UnicodeEncodeError.

(** [argv] is [sys.argv], the script's name included.  [files path] is
    what [Path(path).read_text(encoding="utf-8")] returns: the decoded text
    of the file, or [None] when the call raises (no such file, bytes that
    are not UTF-8). *)
Record world := { argv : list str; files : string -> option str }.

(** Computations of the script: they read the world, append to the trace
    of events, and end in a value or in an exception. *)
Definition M (A : Type) : Type := world -> list event * (exn + A).

Definition ret {A} (a : A) : M A := fun _ => ([], inr a).

Definition bind {A B} (m : M A) (k : A -> M B) : M B :=
  fun w =>
    match m w with
    | (t, inl e) => (t, inl e)
    | (t, inr a) => let (t', r) := k a w in (t ++ t', r)
    end.

Notation "x <- m ;; k" := (bind m (fun x => k))
  (at level 61, m at next level, right associativity).
Notation "m ;; k" := (bind m (fun _ => k))
  (at level 61, right associativity).

Definition raise {A} (e : exn) : M A := fun _ => ([], inl e).

Definition sys_argv : M (list str) := fun w => ([], inr (argv w)).

Definition read_text (path : string) : M str :=
  fun w =>
    ([ReadText path],
     match files w path with
     | Some text => inr text
     | None => inl OSError
     end).

Definition nl : str := [10%N].

(** [print(msg, file=sys.stderr)] *)
Definition print_stderr (msg : str) : M unit :=
  fun _ => ([Write Stderr (msg ++ nl)], inr tt).

(** The encoding of a text stream, as far as a writer can tell: the code
    points it can represent. *)
Definition encoding := char -> bool.

(** UTF-8 takes every code point but the surrogates, ASCII the first 128. *)
Definition utf_8 : encoding :=
  fun c => ((c <? 55296) || (57343 <? c))%N && (c <? 1114112)%N.

Definition ascii_only : encoding := fun c => (c <? 128)%N.

(** [sys.stdout.write(out)].  Standard output has the error handler
    [strict]: the text is encoded before any of it is written, and a code
    point that the encoding of the stream cannot represent raises
    [UnicodeEncodeError].  (Standard error has [backslashreplace] and takes
    every text.) *)
Definition stdout_write (stdout_encoding : encoding) (out : str) : M unit :=
  fun _ =>
    if forallb stdout_encoding out then ([Write Stdout out], inr tt)
    else ([], inl UnicodeEncodeError).

(** The text a trace sends to one stream. *)
Definition written (f : stream) (t : list event) : str :=
  flat_map (fun e =>
              match e, f with
              | Write Stdout d, Stdout | Write Stderr d, Stderr => d
              | _, _ => []
              end) t.

Fixpoint reads (t : list event) : list string :=
  match t with
  | [] => []
  | ReadText p :: t' => p :: reads t'
  | Write _ _ :: t' => reads t'
  end.

(* ================================================================== *)
(** ** scripts/extract_changelog.py *)
(* ================================================================== *)

(** The heading prefix tested by [text[j].startswith("## [")]. *)
Definition heading_prefix : str := lit "## [".

(** [rf"^## \[{re.escape(version)}\](?:\s|$)"] *)
Definition header_pattern (version : str) : str :=
  lit "^## \[" ++ Re.escape version ++ lit "\](?:\s|$)".

(** [line.strip() == ""] *)
Definition blank (line : str) : bool := Str.eqb (Str.strip line) [].

(** [text[a:b]] for indices that are not negative. *)
Definition slice {A} (l : list A) (a b : nat) : list A :=
  firstn (b - a) (skipn a l).

(** [range(a, b)] *)
Definition range (a b : nat) : list nat := seq a (b - a).

(** The first loop,
    [for i, line in enumerate(text): if header_re.match(line): start = i; break],
    over the lines from index [i] on; [None] is the [start = None] that no
    iteration replaced. *)
Fixpoint find_start (header_re : Re.regex) (text : list str) (i : nat)
  : option nat :=
  match text with
  | [] => None
  | line :: rest =>
      if Re.matches header_re line then Some i
      else find_start header_re rest (S i)
  end.

(** The second loop,
    [for j in range(start + 1, len(text)): if text[j].startswith("## ["): end = j; break],
    over the indices [js] that are left; [end_] is the current value of
    [end].  Every [j] of the range is below [len(text)], so [text[j]] does
    not raise. *)
Fixpoint find_end (text : list str) (js : list nat) (end_ : nat) : nat :=
  match js with
  | [] => end_
  | j :: js' =>
      if Str.startswith (nth j text []) heading_prefix then j
      else find_end text js' end_
  end.

(** [while body_lines and body_lines[0].strip() == "": body_lines.pop(0)] *)
Fixpoint pop_leading_blank (body_lines : list str) : list str :=
  match body_lines with
  | [] => []
  | first :: rest =>
      if blank first then pop_leading_blank rest else body_lines
  end.

(** [while body_lines and body_lines[-1].strip() == "": body_lines.pop()],
    for at most [rounds] rounds.  Each round removes a line, so
    [len(body_lines)] rounds let the loop run to its end. *)
Fixpoint pop_trailing_blank (rounds : nat) (body_lines : list str)
  : list str :=
  match rounds with
  | O => body_lines
  | S rounds' =>
      match body_lines with
      | [] => body_lines
      | _ :: _ =>
          if blank (last body_lines [])
          then pop_trailing_blank rounds' (removelast body_lines)
          else body_lines
      end
  end.

(** The lines of the section, from the heading found to the output. *)
Definition section_lines (text : list str) (start : nat) : list str :=
  let end_ := find_end text (range (start + 1) (List.length text))
                       (List.length text) in
  slice text (start + 1) end_.

Definition trim_blank (body_lines : list str) : list str :=
  let body_lines := pop_leading_blank body_lines in
  pop_trailing_blank (List.length body_lines) body_lines.

(** ["\n".join(body_lines).rstrip() + "\n"] *)
Definition render (body_lines : list str) : str :=
  Str.rstrip (Str.join nl body_lines) ++ nl.

Definition main (stdout_encoding : encoding) : M Z :=
  argv <- sys_argv ;;
  if negb (List.length argv =? 2) then
    print_stderr (lit "Usage: extract_changelog.py <version>") ;;
    ret 2%Z
  else
    let version := Str.strip (nth 1 argv []) in
    match version with
    | [] =>
        print_stderr (lit "Version cannot be empty") ;;
        ret 2%Z
    | _ :: _ =>
        content <- read_text "CHANGELOG.md" ;;
        let text := Str.splitlines content in
        match Re.compile (header_pattern version) with
        | None => raise ReError
        | Some header_re =>
            match find_start header_re text 0 with
            | None =>
                print_stderr
                  (lit "Could not find CHANGELOG section for version "
                   ++ version) ;;
                ret 1%Z
            | Some start =>
                let body_lines := trim_blank (section_lines text start) in
                let out := render body_lines in
                stdout_write stdout_encoding out ;;
                ret 0%Z
            end
        end
    end.

(** [raise SystemExit(main())]: the exit status of the process is the
    value [main] returns.  A run is [main] in a world, with the encoding
    of the standard output the process was started with. *)
Definition run (stdout_encoding : encoding) (w : world)
  : list event * (exn + Z) := main stdout_encoding w.

(* ================================================================== *)
(** ** The specification's own words *)
(* ================================================================== *)

(** The heading of a version as the specification describes it: the line
    starts with ["## ["], the identifier and ["]"], and then either ends or
    goes on with a whitespace character. *)
Definition spec_heading (version line : str) : Prop :=
  exists rest,
    line = lit "## [" ++ version ++ lit "]" ++ rest
    /\ (rest = [] \/ exists c rest', rest = c :: rest' /\ Str.isspace c = true).

(** The same, as a test. *)
Definition spec_headingb (version line : str) : bool :=
  let h := lit "## [" ++ version ++ lit "]" in
  Str.startswith line h
  && match skipn (List.length h) line with
     | [] => true
     | c :: _ => Str.isspace c
     end.

(* ================================================================== *)
(** ** Auxiliary definitions of the proofs *)
(* ================================================================== *)

(** The pattern [header_pattern version] once parsed. *)
Definition header_regex (version : str) : Re.regex :=
  fold_right Re.Cat Re.Eps
    ([Re.Bol; Re.Lit (ch "#"); Re.Lit (ch "#"); Re.Lit (ch " ");
      Re.Lit (ch "[")]
     ++ List.map Re.Lit version
     ++ [Re.Lit (ch "]");
         Re.Group (Re.Alt (Re.Cat (Re.Space false) Re.Eps)
                          (Re.Cat Re.Eol Re.Eps))]).

Definition heading_text (version : str) : str :=
  lit "## [" ++ version ++ lit "]".

Definition is_heading_line (line : str) : bool :=
  Str.startswith line heading_prefix.

(** The lines before the first one that starts with ["## ["]. *)
Fixpoint until_heading (lines : list str) : list str :=
  match lines with
  | [] => []
  | l :: rest => if is_heading_line l then [] else l :: until_heading rest
  end.

(** A text that is empty or goes on with a heading line: where a section
    ends. *)
Definition at_boundary (lines : list str) : Prop :=
  match lines with
  | [] => True
  | l :: _ => is_heading_line l = true
  end.

Definition no_linebreak (line : str) : Prop :=
  Forall (fun c => Str.islinebreak c = false) line.

(* ================================================================== *)
(** ** The extraction in the words of the specification *)
(* ================================================================== *)

(** Lines joined with a single newline separator: the first line, and
    then a newline and the line for each of the others. *)
Definition newline_joined (lines : list str) : str :=
  match lines with
  | [] => []
  | first :: others => first ++ flat_map (fun l => nl ++ l) others
  end.

(** A line that is empty or consists only of whitespace. *)
Definition whitespace_only (line : str) : bool := forallb Str.isspace line.

Fixpoint drop_blank (lines : list str) : list str :=
  match lines with
  | [] => []
  | l :: rest => if whitespace_only l then drop_blank rest else lines
  end.

(** Blank lines removed from the front, then from the back. *)
Definition spec_trim (lines : list str) : list str :=
  rev (drop_blank (rev (drop_blank lines))).

(** A text without the whitespace at its end. *)
Definition without_trailing_whitespace (text : str) : str :=
  fold_right (fun c kept =>
                match kept with
                | [] => if Str.isspace c then [] else [c]
                | _ :: _ => c :: kept
                end) [] text.

(** The lines after the first heading of the version. *)
Fixpoint after_heading (version : str) (document : list str)
  : option (list str) :=
  match document with
  | [] => None
  | line :: rest =>
      if spec_headingb version line then Some rest
      else after_heading version rest
  end.

Inductive extraction :=
| InvalidInput
| SectionNotFound
| Extracted (text : str).

(** Steps 1 to 7 of the section extractor: a function of the lines of the
    document and of the identifier. *)
Definition spec_extract (document : list str) (identifier : str)
  : extraction :=
  match Str.strip identifier with
  | [] => InvalidInput
  | (_ :: _) as version =>
      match after_heading version document with
      | None => SectionNotFound
      | Some rest =>
          let section := spec_trim (until_heading rest) in
          Extracted
            (without_trailing_whitespace (newline_joined section) ++ nl)
      end
  end.

(** A run with one argument, as a function of the text of CHANGELOG.md
    ([None] when it cannot be read), of the identifier and of the encoding
    of standard output. *)
Definition spec_run (stdout_encoding : encoding) (document : option str)
           (identifier : str) : list event * (exn + Z) :=
  let invalid :=
    ([Write Stderr (lit "Version cannot be empty" ++ nl)], inr 2%Z) in
  match Str.strip identifier, document with
  | [], _ => invalid
  | _ :: _, None => ([ReadText "CHANGELOG.md"], inl OSError)
  | _ :: _, Some content =>
      match spec_extract (Str.splitlines content) identifier with
      | InvalidInput => invalid
      | SectionNotFound =>
          ([ReadText "CHANGELOG.md";
            Write Stderr
              (lit "Could not find CHANGELOG section for version "
               ++ Str.strip identifier ++ nl)],
           inr 1%Z)
      | Extracted text =>
          if forallb stdout_encoding text
          then ([ReadText "CHANGELOG.md"; Write Stdout text], inr 0%Z)
          else ([ReadText "CHANGELOG.md"], inl UnicodeEncodeError)
      end
  end.

(* ================================================================== *)
(** ** Runs on concrete inputs *)
(* ================================================================== *)

Definition lines_text (ls : list string) : str :=
  flat_map (fun l => lit l ++ nl) ls.

Definition demo_world (version : string) (doc : list string) : world :=
  {| argv := [lit "extract_changelog.py"; lit version];
     files := fun p => if String.eqb p "CHANGELOG.md"
                       then Some (lines_text doc) else None |}.

Definition demo_doc : list string :=
  ["## [0.2.4] - 2024-01-01"; "Fixed a bug."; "";
   "## [0.2.3] - 2023-12-01"; "Initial release."]%string.

Definition doc_padded : list string :=
  ["## [1.0] - today"; ""; "a"; ""; "b  "; " "; "## [0.9]"; "old"]%string.

(** A section with a code point outside ASCII: ["- caf" + U+00E9]. *)
Definition cafe_world : world :=
  {| argv := [lit "extract_changelog.py"; lit "1.0"];
     files := fun _ =>
                Some (lit "## [1.0]" ++ nl ++ lit "- caf" ++ [233%N] ++ nl) |}.

Definition doc_twice : list string :=
  ["# Changelog"; "## [1.0] - second try"; "kept"; "";
   "## [1.0] - first try"; "dropped"]%string.

Example unescaped_dot_is_a_wildcard :
  option_map (fun r => Re.matches r (lit "## [1x2y3]"))
             (Re.compile (lit "^## \[1.2.3\](?:\s|$)")) = Some true.
Proof. reflexivity. Qed.

Example escaped_dot_is_a_dot :
  option_map (fun r => (Re.matches r (lit "## [1x2y3]"),
                        Re.matches r (lit "## [1.2.3] - today")))
             (Re.compile (header_pattern (lit "1.2.3"))) = Some (false, true).
Proof. reflexivity. Qed.

Example splitlines_demo :
  Str.splitlines (lit "a" ++ [13; 10] ++ lit "b" ++ [10; 10] ++ lit " c" ++ [10])%N
  = [lit "a"; lit "b"; []; lit " c"].
Proof. reflexivity. Qed.

Example strip_demo : Str.strip (lit "  1.0 rc ") = lit "1.0 rc".
Proof. reflexivity. Qed.

Example run_0_2_4 :
  run utf_8 (demo_world " 0.2.4 " demo_doc)
  = ([ReadText "CHANGELOG.md"; Write Stdout (lit "Fixed a bug." ++ nl)], inr 0%Z).
Proof. vm_compute. reflexivity. Qed.

Example run_0_2_3 :
  run utf_8 (demo_world "0.2.3" demo_doc)
  = ([ReadText "CHANGELOG.md"; Write Stdout (lit "Initial release." ++ nl)], inr 0%Z).
Proof. vm_compute. reflexivity. Qed.

Example run_no_body :
  run utf_8 (demo_world "0.1.0" ["## [0.1.0] - 2023-01-01"%string])
  = ([ReadText "CHANGELOG.md"; Write Stdout nl], inr 0%Z).
Proof. vm_compute. reflexivity. Qed.

Example run_blank_body :
  run utf_8 (demo_world "1.0" ["## [1.0]"; ""; "   "; "## [0.9] - older"]%string)
  = ([ReadText "CHANGELOG.md"; Write Stdout nl], inr 0%Z).
Proof. vm_compute. reflexivity. Qed.

Example run_no_argument :
  run utf_8 {| argv := [lit "extract_changelog.py"]; files := fun _ => None |}
  = ([Write Stderr (lit "Usage: extract_changelog.py <version>" ++ nl)],
     inr 2%Z).
Proof. reflexivity. Qed.

Example run_missing :
  run utf_8 (demo_world "9.9" demo_doc)
  = ([ReadText "CHANGELOG.md";
      Write Stderr (lit "Could not find CHANGELOG section for version 9.9" ++ nl)],
     inr 1%Z).
Proof. vm_compute. reflexivity. Qed.

(* ================================================================== *)
(** ** Facts about the text operations *)
(* ================================================================== *)

Section StrFacts.

Import Str.

Lemma eqb_nil (s : str) : Str.eqb s [] = true <-> s = [].
Proof. destruct s; simpl; split; congruence. Qed.

Lemma eqb_nil_false (s : str) : Str.eqb s [] = false <-> s <> [].
Proof. destruct s; simpl; split; congruence. Qed.

Lemma startswith_app (h rest : str) : startswith (h ++ rest) h = true.
Proof.
  induction h as [|p h IH]; simpl; [reflexivity|].
  now rewrite N.eqb_refl, IH.
Qed.

Lemma startswith_split (s h : str) :
  startswith s h = true -> s = h ++ skipn (List.length h) s.
Proof.
  revert s; induction h as [|p h IH]; intros s H; simpl in *.
  - reflexivity.
  - destruct s as [|c s]; [discriminate|].
    apply andb_true_iff in H as [Hc Hs].
    apply N.eqb_eq in Hc; subst c.
    f_equal; now apply IH.
Qed.

Lemma startswith_iff (s h : str) :
  startswith s h = true <-> exists rest, s = h ++ rest.
Proof.
  split.
  - intros H; eexists; now apply startswith_split.
  - intros [rest ->]; apply startswith_app.
Qed.

(** A prefix of a prefix: what starts a shortened text starts the text. *)
Lemma startswith_app_l (a b h : str) :
  startswith a h = true -> startswith (a ++ b) h = true.
Proof.
  intros H; apply startswith_iff in H as [rest ->].
  rewrite <- app_assoc; apply startswith_app.
Qed.

End StrFacts.

(* ================================================================== *)
(** ** The heading pattern *)
(* ================================================================== *)

Section HeaderPattern.

Import Re.

Lemma is_special_cases (c : char) :
  is_special c = true -> In c special_chars.
Proof.
  unfold is_special; intros H.
  apply existsb_exists in H as (x & Hin & Hx).
  apply N.eqb_eq in Hx; now subst.
Qed.

(** After a backslash, a character that [re.escape] escapes stands for
    itself. *)
Lemma escaped_special (c : char) :
  is_special c = true -> escaped c = Some (Lit c).
Proof.
  intros H; apply is_special_cases in H.
  cbv [special_chars lit List.map list_ascii_of_string app] in H.
  simpl in H.
  repeat (destruct H as [<- | H]; [reflexivity|]).
  destruct H.
Qed.

Ltac not_special H c k :=
  let E := fresh "E" in
  let k' := eval vm_compute in k in
  destruct (N.eqb c k') eqn:E;
  [ apply N.eqb_eq in E; subst c; vm_compute in H; discriminate | ].

(** A character that [re.escape] leaves alone is no operator of the
    pattern syntax. *)
Lemma parse_plain (c : char) (rest : str) cur stack :
  is_special c = false ->
  parse (c :: rest) cur stack = parse rest (push (Lit c) cur) stack.
Proof.
  intros H; simpl.
  not_special H c (ch "\").
  not_special H c (ch "(").
  not_special H c (ch ")").
  not_special H c (ch "|").
  not_special H c (ch "*").
  not_special H c (ch "+").
  not_special H c (ch "?").
  not_special H c (ch ".").
  not_special H c (ch "^").
  not_special H c (ch "$").
  not_special H c (ch "[").
  not_special H c (ch "{").
  reflexivity.
Qed.

Lemma parse_backslash (c : char) (rest : str) cur stack :
  is_special c = true ->
  parse (ch "\" :: c :: rest) cur stack
  = parse rest (push (Lit c) cur) stack.
Proof.
  intros H.
  change (parse (ch "\" :: c :: rest) cur stack)
    with (match escaped c with
          | Some a => parse rest (push a cur) stack
          | None => None
          end).
  now rewrite escaped_special by exact H.
Qed.

(** The parser reads an escaped text as the literals of the text. *)
Lemma parse_escape (v rest : str) cur stack :
  parse (escape v ++ rest) cur stack
  = parse rest {| alts := alts cur;
                  items := rev (List.map Lit v) ++ items cur |} stack.
Proof.
  revert cur; induction v as [|c v IH]; intros cur.
  - destruct cur; reflexivity.
  - unfold escape; simpl flat_map; fold (escape v).
    destruct (is_special c) eqn:Hc.
    + cbn [app]. rewrite parse_backslash by exact Hc. rewrite IH.
      simpl. now rewrite <- app_assoc.
    + cbn [app]. rewrite parse_plain by exact Hc. rewrite IH.
      simpl. now rewrite <- app_assoc.
Qed.

(** [re.compile] accepts the heading pattern of every version, special
    characters or not, and yields [header_regex]. *)
Lemma compile_header_pattern (version : str) :
  compile (header_pattern version) = Some (header_regex version).
Proof.
  unfold compile, header_pattern.
  change (lit "^## \[" ++ escape version ++ lit "\](?:\s|$)")
    with (ch "^" :: ch "#" :: ch "#" :: ch " " :: ch "\" :: ch "["
          :: (escape version ++ lit "\](?:\s|$)")).
  cbn -[escape lit app].
  rewrite parse_escape.
  simpl alts; simpl items.
  remember (rev (List.map Lit version)
            ++ [Lit 91%N; Lit 32%N; Lit 35%N; Lit 35%N; Bol]) as its eqn:Hits.
  cbn. unfold close, seq_of; cbn.
  subst its. unfold header_regex.
  rewrite !rev_app_distr, rev_involutive. cbn.
  rewrite <- !app_assoc. reflexivity.
Qed.

Lemma skipn_nth_error {A} (l : list A) (i : nat) :
  skipn i l = match nth_error l i with
              | Some d => d :: skipn (S i) l
              | None => []
              end.
Proof.
  revert i; induction l as [|x l IH]; intros [|i]; simpl; try reflexivity.
  apply IH.
Qed.

(** A run of literals matches exactly its own text. *)
Lemma ends_literals (w : str) (tl : list regex) (s : str) (i : nat) :
  ends (fold_right Cat Eps (List.map Lit w ++ tl)) s i
  = if Str.startswith (skipn i s) w
    then ends (fold_right Cat Eps tl) s (i + List.length w)
    else [].
Proof.
  revert i; induction w as [|c w IH]; intros i.
  - simpl. now rewrite Nat.add_0_r.
  - cbn [List.map app fold_right ends Str.startswith].
    rewrite (skipn_nth_error s i).
    destruct (nth_error s i) as [d|]; [|reflexivity].
    destruct (N.eqb d c); [|reflexivity].
    cbn [flat_map andb]. rewrite app_nil_r, IH.
    cbn [List.length]. now rewrite Nat.add_succ_r.
Qed.

Lemma header_regex_literals (version : str) :
  header_regex version
  = Cat Bol
      (fold_right Cat Eps
         (List.map Lit (heading_text version)
          ++ [Group (Alt (Cat (Space false) Eps) (Cat Eol Eps))])).
Proof.
  unfold header_regex, heading_text.
  rewrite !map_app. cbn. rewrite <- !app_assoc. reflexivity.
Qed.

(** What the tail of the pattern, [(?:\s|$)], accepts after a text [h]. *)
Lemma ends_boundary (h rest : str) :
  ends (Cat (Group (Alt (Cat (Space false) Eps) (Cat Eol Eps))) Eps)
       (h ++ rest) (List.length h) <> []
  <-> match rest with
      | [] => True
      | c :: _ => Str.isspace c = true
      end.
Proof.
  cbn [ends fold_right].
  rewrite nth_error_app2, Nat.sub_diag by lia.
  rewrite skipn_app, Nat.sub_diag, skipn_all, length_app.
  cbn [skipn app].
  destruct rest as [|c rest]; cbn [nth_error List.length xorb].
  - rewrite Nat.add_0_r, Nat.eqb_refl. cbn. split; [trivial|discriminate].
  - destruct (Str.isspace c) eqn:Hc.
    + cbn. split; [trivial|discriminate].
    + replace (List.length h =? List.length h + S (List.length rest))
        with false by (symmetry; apply Nat.eqb_neq; lia).
      cbn [Str.eqb].
      destruct (N.eqb c 10) eqn:E.
      * apply N.eqb_eq in E; subst c. discriminate Hc.
      * rewrite andb_false_r. cbn. split; [congruence|discriminate].
Qed.

Lemma matches_true (r : regex) (s : str) :
  matches r s = true <-> ends r s 0 <> [].
Proof.
  unfold matches; destruct (ends r s 0); split; congruence.
Qed.

Lemma heading_text_app (version rest : str) :
  heading_text version ++ rest = lit "## [" ++ version ++ lit "]" ++ rest.
Proof. unfold heading_text. now rewrite <- !app_assoc. Qed.

Lemma spec_heading_text (version line : str) :
  spec_heading version line
  <-> Str.startswith line (heading_text version) = true
      /\ match skipn (List.length (heading_text version)) line with
         | [] => True
         | c :: _ => Str.isspace c = true
         end.
Proof.
  unfold spec_heading. split.
  - intros (rest & -> & Hb). rewrite <- heading_text_app.
    rewrite startswith_app, skipn_app, Nat.sub_diag, skipn_all.
    split; [reflexivity|].
    destruct Hb as [-> | (c & r & -> & Hc)]; [exact I|exact Hc].
  - intros [Hs Hb]. apply startswith_split in Hs.
    exists (skipn (List.length (heading_text version)) line).
    rewrite <- heading_text_app. split; [exact Hs|].
    destruct (skipn _ line) as [|c r]; [now left|right; eauto].
Qed.

(** The compiled heading pattern accepts a line exactly when the line
    is a heading of the version in the words of the specification. *)
Lemma header_regex_matches (version line : str) :
  matches (header_regex version) line = true
  <-> spec_heading version line.
Proof.
  rewrite matches_true, header_regex_literals, spec_heading_text.
  cbn [ends Nat.eqb flat_map]. rewrite app_nil_r, ends_literals.
  cbn [skipn Nat.add].
  destruct (Str.startswith line (heading_text version)) eqn:Hs.
  - apply startswith_split in Hs.
    rewrite Hs at 1. rewrite ends_boundary. tauto.
  - split; [congruence|]. intros [? _]; discriminate.
Qed.

Lemma spec_headingb_true (version line : str) :
  spec_headingb version line = true <-> spec_heading version line.
Proof.
  rewrite spec_heading_text. unfold spec_headingb.
  fold (heading_text version). cbv zeta.
  rewrite andb_true_iff.
  destruct (skipn _ line); tauto.
Qed.

End HeaderPattern.

(* ================================================================== *)
(** ** Stripping *)
(* ================================================================== *)

Section Strip.

Import Str.

Lemma lstrip_app (a b : str) :
  lstrip (a ++ b) = match lstrip a with
                    | [] => lstrip b
                    | _ :: _ => lstrip a ++ b
                    end.
Proof.
  induction a as [|c a IH]; simpl; [reflexivity|].
  destruct (isspace c); [exact IH|reflexivity].
Qed.

Lemma lstrip_idem (s : str) : lstrip (lstrip s) = lstrip s.
Proof.
  induction s as [|c s IH]; simpl; [reflexivity|].
  destruct (isspace c) eqn:Hc; [exact IH|].
  simpl. now rewrite Hc.
Qed.

(** [rstrip] one character at a time, from the left. *)
Lemma rstrip_cons (c : char) (s : str) :
  rstrip (c :: s) = match rstrip s with
                    | [] => if isspace c then [] else [c]
                    | _ :: _ => c :: rstrip s
                    end.
Proof.
  unfold rstrip. simpl rev. rewrite lstrip_app.
  destruct (lstrip (rev s)) as [|d t] eqn:E.
  - simpl. destruct (isspace c); reflexivity.
  - rewrite rev_app_distr. simpl rev at 1. cbn [app].
    destruct (rev (d :: t)) eqn:E'; [|reflexivity].
    apply (f_equal (@List.length _)) in E'.
    rewrite length_rev in E'. discriminate.
Qed.

Lemma rstrip_nil : rstrip [] = [].
Proof. reflexivity. Qed.

Lemma rstrip_idem (s : str) : rstrip (rstrip s) = rstrip s.
Proof.
  unfold rstrip. now rewrite rev_involutive, lstrip_idem.
Qed.

Lemma rstrip_lstrip (s : str) : rstrip (lstrip s) = lstrip (rstrip s).
Proof.
  induction s as [|c s IH]; [reflexivity|].
  rewrite rstrip_cons. simpl lstrip.
  destruct (isspace c) eqn:Hc.
  - rewrite IH. destruct (rstrip s); simpl; [reflexivity|].
    now rewrite Hc.
  - rewrite rstrip_cons.
    destruct (rstrip s); simpl; now rewrite Hc.
Qed.

(** Trimming twice is trimming once. *)
Lemma strip_idem (s : str) : strip (strip s) = strip s.
Proof.
  unfold strip.
  now rewrite <- rstrip_lstrip, lstrip_idem, rstrip_lstrip, rstrip_idem.
Qed.

(** What [rstrip] removes is whitespace, and it removes all of it. *)
Lemma rstrip_spec (s : str) :
  exists ws,
    s = rstrip s ++ ws
    /\ forallb isspace ws = true
    /\ (rstrip s = [] \/ isspace (last (rstrip s) 0%N) = false).
Proof.
  induction s as [|c s (ws & Hs & Hws & Hlast)].
  - exists []; repeat split; auto.
  - rewrite rstrip_cons.
    destruct (rstrip s) as [|d t] eqn:E.
    + destruct (isspace c) eqn:Hc.
      * exists (c :: ws). simpl in Hs |- *. subst ws. rewrite Hc, Hws. auto.
      * exists ws. simpl in Hs |- *. subst ws. repeat split; auto.
    + exists ws. rewrite Hs at 1. repeat split; auto.
      right. destruct Hlast as [?|Hl]; [discriminate|exact Hl].
Qed.

(** Text after which something other than whitespace follows is out of
    [rstrip]'s reach. *)
Lemma rstrip_app (a b : str) :
  rstrip b <> [] -> rstrip (a ++ b) = a ++ rstrip b.
Proof.
  intros Hb. induction a as [|c a IH]; [reflexivity|].
  cbn [app]. rewrite rstrip_cons, IH.
  destruct (a ++ rstrip b) eqn:E; [|reflexivity].
  apply app_eq_nil in E as [_ E]. contradiction.
Qed.

Lemma rstrip_prefix (s : str) : exists ws, s = rstrip s ++ ws.
Proof. destruct (rstrip_spec s) as (ws & H & _); eauto. Qed.

Lemma blank_false_rstrip (line : str) :
  blank line = false -> rstrip line <> [].
Proof.
  unfold blank, strip. intros H E. rewrite E in H. discriminate.
Qed.

End Strip.

(* ================================================================== *)
(** ** The two scans *)
(* ================================================================== *)

Section Scans.

Variable header_re : Re.regex.

(** The first loop stops at the first line the pattern accepts. *)
Lemma find_start_some (text : list str) (i start : nat) :
  find_start header_re text i = Some start ->
  exists before heading rest,
    text = before ++ heading :: rest
    /\ start = i + List.length before
    /\ Forall (fun l => Re.matches header_re l = false) before
    /\ Re.matches header_re heading = true.
Proof.
  revert i; induction text as [|line text IH]; intros i H; simpl in H.
  - discriminate.
  - destruct (Re.matches header_re line) eqn:Hm.
    + injection H as <-. exists [], line, text. simpl.
      repeat split; auto.
    + apply IH in H as (before & heading & rest & -> & -> & Hb & Hh).
      exists (line :: before), heading, rest. simpl.
      repeat split; auto; lia.
Qed.

Lemma find_start_none (text : list str) (i : nat) :
  find_start header_re text i = None
  <-> Forall (fun l => Re.matches header_re l = false) text.
Proof.
  revert i; induction text as [|line text IH]; intros i; simpl.
  - split; auto.
  - destruct (Re.matches header_re line) eqn:Hm.
    + split; [discriminate|]. intros H; inversion H; congruence.
    + rewrite IH. split; [auto|]. intros H; now inversion H.
Qed.

(** Lines after the first accepted one do not reach the first loop. *)
Lemma find_start_app (a b : list str) (i start : nat) :
  find_start header_re a i = Some start ->
  find_start header_re (a ++ b) i = Some start.
Proof.
  revert i; induction a as [|line a IH]; intros i H; simpl in *.
  - discriminate.
  - destruct (Re.matches header_re line); [exact H|now apply IH].
Qed.

Lemma find_start_first (before rest : list str) (heading : str) (i : nat) :
  Forall (fun l => Re.matches header_re l = false) before ->
  Re.matches header_re heading = true ->
  find_start header_re (before ++ heading :: rest) i
  = Some (i + List.length before).
Proof.
  revert i; induction before as [|l before IH];
    intros i Hb Hh; simpl.
  - rewrite Hh. f_equal; lia.
  - inversion Hb as [|? ? Hl Hb']; subst. rewrite Hl, IH by assumption.
    f_equal; lia.
Qed.

End Scans.

Section SectionLines.

Lemma find_end_until (pre tl : list str) (end_ : nat) :
  end_ = List.length pre + List.length tl ->
  find_end (pre ++ tl) (seq (List.length pre) (List.length tl)) end_
  = List.length pre + List.length (until_heading tl).
Proof.
  revert pre end_; induction tl as [|l tl IH]; intros pre end_ He.
  - simpl in *. lia.
  - cbn [List.length seq find_end until_heading].
    rewrite nth_middle. unfold is_heading_line.
    destruct (Str.startswith l heading_prefix).
    + simpl; lia.
    + specialize (IH (pre ++ [l]) end_).
      rewrite <- app_assoc, length_app, Nat.add_1_r in IH. cbn [app] in IH.
      rewrite IH by (simpl in He; lia). simpl; lia.
Qed.

Lemma firstn_until_heading (tl : list str) :
  firstn (List.length (until_heading tl)) tl = until_heading tl.
Proof.
  induction tl as [|l tl IH]; simpl; [reflexivity|].
  destruct (is_heading_line l); simpl; [reflexivity|now rewrite IH].
Qed.

(** The section found after the heading at [start]: the lines that
    follow it, up to the next heading line. *)
Lemma section_lines_after (before rest : list str) (heading : str) :
  section_lines (before ++ heading :: rest) (List.length before)
  = until_heading rest.
Proof.
  unfold section_lines, range, slice.
  set (pre := before ++ [heading]).
  assert (Hpre : List.length pre = List.length before + 1)
    by (unfold pre; rewrite length_app; reflexivity).
  replace (before ++ heading :: rest) with (pre ++ rest)
    by (unfold pre; now rewrite <- app_assoc).
  rewrite <- Hpre.
  replace (List.length (pre ++ rest) - List.length pre)
    with (List.length rest) by (rewrite length_app; lia).
  rewrite find_end_until by (now rewrite length_app).
  rewrite skipn_app, Nat.sub_diag, skipn_all. cbn [app skipn].
  replace (List.length pre + List.length (until_heading rest)
           - List.length pre)
    with (List.length (until_heading rest)) by lia.
  apply firstn_until_heading.
Qed.

Lemma until_heading_spec (lines : list str) :
  exists rest,
    lines = until_heading lines ++ rest
    /\ Forall (fun l => is_heading_line l = false) (until_heading lines)
    /\ at_boundary rest.
Proof.
  induction lines as [|l lines (rest & Hl & Hf & Hb)]; simpl.
  - exists []; simpl; auto.
  - destruct (is_heading_line l) eqn:E.
    + exists (l :: lines); simpl; auto.
    + exists rest. simpl. rewrite <- Hl. auto.
Qed.

(** What comes at or after a boundary has no part in the section. *)
Lemma until_heading_app (mid b : list str) :
  at_boundary b -> until_heading (mid ++ b) = until_heading mid.
Proof.
  intros Hb. induction mid as [|l mid IH]; simpl.
  - destruct b as [|l b]; simpl in *; [reflexivity|now rewrite Hb].
  - destruct (is_heading_line l); [reflexivity|now rewrite IH].
Qed.

End SectionLines.

(* ================================================================== *)
(** ** Trimming the blank lines *)
(* ================================================================== *)

Section Trim.

Lemma pop_leading_blank_spec (body_lines : list str) :
  exists front,
    body_lines = front ++ pop_leading_blank body_lines
    /\ Forall (fun l => blank l = true) front
    /\ match pop_leading_blank body_lines with
       | [] => True
       | first :: _ => blank first = false
       end.
Proof.
  induction body_lines as [|l ls (front & Hl & Hf & Hh)]; simpl.
  - exists []; auto.
  - destruct (blank l) eqn:E.
    + exists (l :: front). simpl. rewrite <- Hl. auto.
    + exists []. simpl. auto.
Qed.

Lemma length_removelast_S {A} (l : list A) :
  l <> [] -> S (List.length (removelast l)) = List.length l.
Proof.
  intros Hne. destruct (exists_last Hne) as (init & x & ->).
  rewrite removelast_last, length_app. simpl. lia.
Qed.

(** With a round for every line, the second loop stops because its
    condition fails: nothing is left, or the last line is not blank. *)
Lemma pop_trailing_blank_spec (rounds : nat) (body_lines : list str) :
  List.length body_lines <= rounds ->
  exists back,
    body_lines = pop_trailing_blank rounds body_lines ++ back
    /\ Forall (fun l => blank l = true) back
    /\ (pop_trailing_blank rounds body_lines = []
        \/ blank (last (pop_trailing_blank rounds body_lines) []) = false).
Proof.
  revert body_lines; induction rounds as [|n IH]; intros ls Hlen.
  - destruct ls; [|simpl in Hlen; lia]. exists []; simpl; auto.
  - cbn [pop_trailing_blank].
    destruct ls as [|l0 ls0]; [exists []; simpl; auto|].
    assert (Hne : l0 :: ls0 <> []) by discriminate.
    set (ls := l0 :: ls0) in *.
    destruct (blank (last ls [])) eqn:E.
    + destruct (IH (removelast ls)) as (back & Hb & Hf & Hlast).
      { pose proof (length_removelast_S Hne). lia. }
      exists (back ++ [last ls []]). repeat split.
      * rewrite app_assoc, <- Hb. now apply app_removelast_last.
      * apply Forall_app; split; [exact Hf|]. now constructor.
      * exact Hlast.
    + exists []. rewrite app_nil_r. repeat split; auto.
Qed.

Lemma Forall_blank_last (ls : list str) :
  Forall (fun l => blank l = true) ls -> ls <> [] ->
  blank (last ls []) = true.
Proof.
  intros H Hne. destruct (exists_last Hne) as (init & x & ->).
  rewrite last_last. apply Forall_app in H as [_ H]. now inversion H.
Qed.

(** The two loops together: blank lines go from both ends and nothing
    else goes. *)
Lemma trim_blank_spec (raw : list str) :
  exists front back,
    raw = front ++ trim_blank raw ++ back
    /\ Forall (fun l => blank l = true) front
    /\ Forall (fun l => blank l = true) back
    /\ pop_leading_blank raw = trim_blank raw ++ back
    /\ (trim_blank raw = [] /\ back = []
        \/ blank (hd [] (trim_blank raw)) = false
           /\ blank (last (trim_blank raw) []) = false).
Proof.
  unfold trim_blank.
  destruct (pop_leading_blank_spec raw) as (front & Hraw & Hf & Hhd).
  set (ls := pop_leading_blank raw) in *.
  destruct (pop_trailing_blank_spec (rounds := List.length ls) ls (le_n _))
    as (back & Hls & Hb & Hlast).
  set (body := pop_trailing_blank (List.length ls) ls) in *.
  exists front, back. repeat split; auto.
  - now rewrite <- Hls.
  - destruct body as [|b0 body'] eqn:Eb.
    + left. split; [reflexivity|].
      simpl in Hls. subst back.
      destruct ls as [|l ls']; [reflexivity|].
      inversion Hb; congruence.
    + right. destruct Hlast as [?|Hlast]; [discriminate|].
      split; [|exact Hlast].
      rewrite Hls in Hhd. exact Hhd.
Qed.

Lemma trim_blank_all_blank (raw : list str) :
  Forall (fun l => blank l = true) raw -> trim_blank raw = [].
Proof.
  intros H. unfold trim_blank.
  assert (E : pop_leading_blank raw = []).
  { induction H as [|l ls Hl _ IH]; simpl; [reflexivity|].
    now rewrite Hl. }
  now rewrite E.
Qed.

End Trim.

(* ================================================================== *)
(** ** Lines and line breaks *)
(* ================================================================== *)

Section Lines.

Import Str.

(** No line of [splitlines] holds a line break. *)
Lemma splitlines_from_no_linebreak (n : nat) :
  forall (s cur : str),
    List.length s <= n -> no_linebreak cur ->
    Forall no_linebreak (splitlines_from cur s).
Proof.
  induction n as [|n IH]; intros s cur Hlen Hcur.
  - destruct s; [|simpl in Hlen; lia]. simpl.
    destruct cur; constructor; auto.
  - destruct s as [|c rest].
    + simpl. destruct cur; constructor; auto.
    + simpl in Hlen. cbn [splitlines_from].
      destruct (islinebreak c) eqn:Hc.
      * assert (Hnil : no_linebreak []) by constructor.
        destruct (N.eqb c 13).
        -- destruct rest as [|d rest'].
           ++ constructor; [exact Hcur|]. apply IH; [simpl; lia|exact Hnil].
           ++ destruct (N.eqb d 10); constructor; auto;
                apply IH; simpl in *; auto; lia.
        -- constructor; [exact Hcur|]. apply IH; [lia|exact Hnil].
      * apply IH; [lia|]. apply Forall_app; split; [exact Hcur|].
        constructor; auto.
Qed.

Lemma splitlines_no_linebreak (s : str) :
  Forall no_linebreak (splitlines s).
Proof.
  apply (splitlines_from_no_linebreak (n := List.length s));
    [lia|constructor].
Qed.

(** A line without line breaks, ended by a newline, is read back as
    that line. *)
Lemma splitlines_from_line (l cur rest : str) :
  no_linebreak l ->
  splitlines_from cur (l ++ nl ++ rest)
  = (cur ++ l) :: splitlines_from [] rest.
Proof.
  revert cur; induction l as [|c l IH]; intros cur Hl.
  - rewrite app_nil_r. reflexivity.
  - inversion Hl as [|? ? Hc Hl']; subst.
    cbn [app splitlines_from]. rewrite Hc.
    change (l ++ 10%N :: rest) with (l ++ nl ++ rest).
    rewrite IH by assumption. now rewrite <- app_assoc.
Qed.

Lemma splitlines_terminated (ls : list str) :
  Forall no_linebreak ls ->
  splitlines (flat_map (fun l => l ++ nl) ls) = ls.
Proof.
  unfold splitlines. induction 1 as [|l ls Hl _ IH]; [reflexivity|].
  cbn [flat_map]. rewrite <- app_assoc, splitlines_from_line by assumption.
  now rewrite IH.
Qed.

Lemma join_snoc (init : list str) (x : str) :
  join nl (init ++ [x]) = flat_map (fun l => l ++ nl) init ++ x.
Proof.
  induction init as [|l init IH]; [reflexivity|].
  cbn [app flat_map]. change (join nl (l :: init ++ [x]))
    with (match init ++ [x] with
          | [] => l
          | _ :: _ => l ++ nl ++ join nl (init ++ [x])
          end).
  destruct (init ++ [x]) eqn:E.
  - destruct init; discriminate.
  - rewrite IH. now rewrite <- !app_assoc.
Qed.

Lemma no_linebreak_rstrip (l : str) :
  no_linebreak l -> no_linebreak (rstrip l).
Proof.
  intros H. destruct (rstrip_prefix l) as (ws & E).
  rewrite E in H. now apply Forall_app in H as [H _].
Qed.

End Lines.

(* ================================================================== *)
(** ** The runs of the script *)
(* ================================================================== *)

Section Runs.

Variable enc : encoding.

(** Every run, by the path it takes through [main]. *)
Lemma run_unfold (w : world) :
  run enc w
  = if negb (List.length (argv w) =? 2) then
      ([Write Stderr (lit "Usage: extract_changelog.py <version>" ++ nl)],
       inr 2%Z)
    else
      match Str.strip (nth 1 (argv w) []) with
      | [] => ([Write Stderr (lit "Version cannot be empty" ++ nl)], inr 2%Z)
      | c :: v =>
          match files w "CHANGELOG.md" with
          | None => ([ReadText "CHANGELOG.md"], inl OSError)
          | Some content =>
              match find_start (header_regex (c :: v))
                               (Str.splitlines content) 0 with
              | None =>
                  ([ReadText "CHANGELOG.md";
                    Write Stderr
                      (lit "Could not find CHANGELOG section for version "
                       ++ (c :: v) ++ nl)],
                   inr 1%Z)
              | Some start =>
                  let out :=
                    render (trim_blank
                              (section_lines (Str.splitlines content) start))
                  in
                  if forallb enc out
                  then ([ReadText "CHANGELOG.md"; Write Stdout out], inr 0%Z)
                  else ([ReadText "CHANGELOG.md"], inl UnicodeEncodeError)
              end
          end
      end.
Proof.
  unfold run, main, bind, sys_argv.
  destruct (negb (List.length (argv w) =? 2)); [reflexivity|].
  destruct (Str.strip (nth 1 (argv w) [])) as [|c v]; [reflexivity|].
  unfold read_text.
  destruct (files w "CHANGELOG.md") as [content|]; [|reflexivity].
  rewrite compile_header_pattern.
  destruct (find_start _ _ 0).
  - unfold stdout_write. cbv zeta.
    destruct (forallb enc _); reflexivity.
  - unfold print_stderr, ret. cbn [app]. now rewrite <- app_assoc.
Qed.

Lemma run_two_args (w : world) (p arg : str) :
  argv w = [p; arg] ->
  run enc w
  = match Str.strip arg with
    | [] => ([Write Stderr (lit "Version cannot be empty" ++ nl)], inr 2%Z)
    | c :: v =>
        match files w "CHANGELOG.md" with
        | None => ([ReadText "CHANGELOG.md"], inl OSError)
        | Some content =>
            match find_start (header_regex (c :: v))
                             (Str.splitlines content) 0 with
            | None =>
                ([ReadText "CHANGELOG.md";
                  Write Stderr
                    (lit "Could not find CHANGELOG section for version "
                     ++ (c :: v) ++ nl)],
                 inr 1%Z)
            | Some start =>
                let out :=
                  render (trim_blank
                            (section_lines (Str.splitlines content) start))
                in
                if forallb enc out
                then ([ReadText "CHANGELOG.md"; Write Stdout out], inr 0%Z)
                else ([ReadText "CHANGELOG.md"], inl UnicodeEncodeError)
            end
        end
    end.
Proof.
  intros H. rewrite run_unfold, H. reflexivity.
Qed.

(** A run that returns 0 found a heading and wrote its section, all of
    which the standard output could encode. *)
Lemma run_success (w : world) (t : list event) :
  run enc w = (t, inr 0%Z) ->
  exists content start,
    Str.strip (nth 1 (argv w) []) <> []
    /\ files w "CHANGELOG.md" = Some content
    /\ find_start (header_regex (Str.strip (nth 1 (argv w) [])))
                  (Str.splitlines content) 0 = Some start
    /\ forallb enc
         (render (trim_blank (section_lines (Str.splitlines content) start)))
       = true
    /\ t = [ReadText "CHANGELOG.md";
            Write Stdout
              (render (trim_blank
                         (section_lines (Str.splitlines content) start)))].
Proof.
  rewrite run_unfold.
  destruct (negb (List.length (argv w) =? 2)); [discriminate|].
  destruct (Str.strip (nth 1 (argv w) [])) as [|c v]; [discriminate|].
  destruct (files w "CHANGELOG.md") as [content|]; [|discriminate].
  destruct (find_start _ _ 0) as [start|] eqn:E; [|discriminate].
  cbv zeta.
  destruct (forallb enc _) eqn:Henc; [|discriminate].
  intros H; injection H as <-.
  exists content, start. repeat split; auto. discriminate.
Qed.

Lemma spec_heading_is_heading_line (version line : str) :
  spec_heading version line -> is_heading_line line = true.
Proof.
  intros (rest & -> & _). apply startswith_app.
Qed.

End Runs.

Arguments run_unfold : clear implicits.
Arguments run_two_args : clear implicits.
Arguments run_success : clear implicits.

Section Blank.

Import Str.

Lemma lstrip_nil (s : str) :
  lstrip s = [] <-> Forall (fun c => isspace c = true) s.
Proof.
  induction s as [|c s IH]; simpl.
  - split; auto.
  - destruct (isspace c) eqn:Hc.
    + rewrite IH. split; [auto|]. intros H; now inversion H.
    + split; [discriminate|]. intros H; inversion H; congruence.
Qed.

(** [line.strip() == ""] says that the line is empty or holds nothing
    but whitespace. *)
Lemma blank_whitespace_only (line : str) :
  blank line = true <-> Forall (fun c => isspace c = true) line.
Proof.
  unfold blank, strip. rewrite eqb_nil, lstrip_nil.
  destruct (rstrip_spec line) as (ws & Hl & Hws & Hlast).
  split.
  - intros H. rewrite Hl. apply Forall_app; split; [exact H|].
    apply Forall_forall. now apply forallb_forall.
  - intros H. rewrite Hl in H. now apply Forall_app in H as [H _].
Qed.

End Blank.

(* ================================================================== *)
(** ** The script against the extraction of the specification *)
(* ================================================================== *)

Section Refinement.

Lemma join_newline_joined (lines : list str) :
  Str.join nl lines = newline_joined lines.
Proof.
  destruct lines as [|first others]; [reflexivity|].
  revert first; induction others as [|l others IH]; intros first.
  - simpl. now rewrite app_nil_r.
  - change (Str.join nl (first :: l :: others))
      with (first ++ nl ++ Str.join nl (l :: others)).
    rewrite IH. cbn [newline_joined flat_map].
    now rewrite <- !app_assoc.
Qed.

Lemma rstrip_without_trailing_whitespace (text : str) :
  Str.rstrip text = without_trailing_whitespace text.
Proof.
  induction text as [|c text IH]; [reflexivity|].
  rewrite rstrip_cons, IH. reflexivity.
Qed.

Lemma blank_is_whitespace_only (line : str) :
  blank line = whitespace_only line.
Proof.
  apply Bool.eq_true_iff_eq. unfold whitespace_only.
  rewrite blank_whitespace_only, forallb_forall, Forall_forall. reflexivity.
Qed.

Lemma pop_leading_drop_blank (lines : list str) :
  pop_leading_blank lines = drop_blank lines.
Proof.
  induction lines as [|l lines IH]; [reflexivity|].
  cbn [pop_leading_blank drop_blank].
  now rewrite blank_is_whitespace_only, IH.
Qed.

(** The second loop is the first loop seen from the other end. *)
Lemma pop_trailing_as_leading (rounds : nat) (ls : list str) :
  List.length ls <= rounds ->
  pop_trailing_blank rounds ls = rev (pop_leading_blank (rev ls)).
Proof.
  revert ls; induction rounds as [|n IH]; intros ls Hlen.
  - destruct ls; [reflexivity|simpl in Hlen; lia].
  - destruct ls as [|l0 ls0]; [reflexivity|].
    assert (Hne : l0 :: ls0 <> []) by discriminate.
    destruct (exists_last Hne) as (init & x & E). rewrite E in *. clear E Hne.
    rewrite length_app in Hlen. simpl in Hlen.
    rewrite rev_app_distr. cbn [rev app pop_leading_blank].
    replace (pop_trailing_blank (S n) (init ++ [x]))
      with (if blank (last (init ++ [x]) [])
            then pop_trailing_blank n (removelast (init ++ [x]))
            else init ++ [x])
      by (destruct init; reflexivity).
    rewrite last_last, removelast_last.
    destruct (blank x).
    + apply IH. lia.
    + cbn [rev]. now rewrite rev_involutive.
Qed.

Lemma trim_blank_spec_trim (lines : list str) :
  trim_blank lines = spec_trim lines.
Proof.
  unfold trim_blank, spec_trim.
  rewrite pop_trailing_as_leading by apply le_n.
  now rewrite !pop_leading_drop_blank.
Qed.

Lemma spec_headingb_matches (version line : str) :
  spec_headingb version line = Re.matches (header_regex version) line.
Proof.
  apply Bool.eq_true_iff_eq.
  now rewrite spec_headingb_true, header_regex_matches.
Qed.

Lemma after_heading_find_start (version : str) (document : list str) (i : nat) :
  match find_start (header_regex version) document i with
  | None => after_heading version document = None
  | Some start =>
      exists before heading rest,
        document = before ++ heading :: rest
        /\ start = i + List.length before
        /\ after_heading version document = Some rest
  end.
Proof.
  revert i; induction document as [|line document IH]; intros i.
  - reflexivity.
  - cbn [find_start after_heading]. rewrite spec_headingb_matches.
    destruct (Re.matches (header_regex version) line).
    + exists [], line, document. repeat split. simpl; lia.
    + specialize (IH (S i)).
      destruct (find_start (header_regex version) document (S i)).
      * destruct IH as (before & heading & rest & -> & -> & E).
        exists (line :: before), heading, rest.
        repeat split; [simpl; lia|exact E].
      * exact IH.
Qed.

(** The script computes the extraction of the specification. *)
Lemma run_is_spec_run (enc : encoding) (w : world) (p arg : str) :
  argv w = [p; arg] ->
  run enc w = spec_run enc (files w "CHANGELOG.md") arg.
Proof.
  intros Hw. rewrite (run_two_args enc _ _ _ Hw).
  unfold spec_run, spec_extract.
  destruct (Str.strip arg) as [|c v]; [reflexivity|].
  destruct (files w "CHANGELOG.md") as [content|]; [|reflexivity].
  pose proof (after_heading_find_start (c :: v) (Str.splitlines content) 0)
    as H.
  destruct (find_start (header_regex (c :: v)) (Str.splitlines content) 0)
    as [start|].
  - destruct H as (before & heading & rest & Htext & -> & ->).
    rewrite Htext. cbn [Nat.add]. rewrite section_lines_after.
    cbv zeta. unfold render.
    now rewrite trim_blank_spec_trim, join_newline_joined,
      rstrip_without_trailing_whitespace.
  - now rewrite H.
Qed.

End Refinement.

Arguments run_is_spec_run : clear implicits.

(* ================================================================== *)
(** ** Properties of the extraction *)
(* ================================================================== *)

Unset Implicit Arguments.

(** C1: for every line and every version identifier that is not empty
    once trimmed, the pattern built from the trimmed identifier compiles,
    and it accepts the line exactly when the line starts with the literal
    text ["## [" + identifier + "]"] and then ends or goes on with a
    whitespace character.  This holds whatever characters the identifier
    holds: [.], [*], [[] and the other operators of the pattern syntax are
    matched as themselves. *)
Theorem heading_matcher_is_literal (arg line : str) :
  Str.strip arg <> [] ->
  exists header_re,
    Re.compile (header_pattern (Str.strip arg)) = Some header_re
    /\ (Re.matches header_re line = true
        <-> spec_heading (Str.strip arg) line).
Proof.
  intros _. exists (header_regex (Str.strip arg)). split.
  - apply compile_header_pattern.
  - apply header_regex_matches.
Qed.

Lemma heading_matcher_is_literal_witness :
  exists header_re,
    Re.compile (header_pattern (Str.strip (lit " 1.2.[*] "))) = Some header_re
    /\ (Re.matches header_re (lit "## [1.2.[*]] - 2024-01-01") = true
        <-> spec_heading (Str.strip (lit " 1.2.[*] "))
                         (lit "## [1.2.[*]] - 2024-01-01")).
Proof.
  apply (heading_matcher_is_literal (lit " 1.2.[*] ")).
  vm_compute. discriminate.
Defined.

(** C2: in a document with a line that the heading matcher accepts, the
    first loop finds the first such line, and the raw section is exactly
    the lines after it and before the next line that starts with
    ["## ["]; when no such line follows, the section runs to the end of
    the document. *)
Theorem raw_section_between_headings
        (header_re : Re.regex) (text : list str) :
  Exists (fun l => Re.matches header_re l = true) text ->
  exists start before heading raw rest,
    find_start header_re text 0 = Some start
    /\ text = before ++ heading :: raw ++ rest
    /\ List.length before = start
    /\ Forall (fun l => Re.matches header_re l = false) before
    /\ Re.matches header_re heading = true
    /\ section_lines text start = raw
    /\ Forall (fun l => Str.startswith l heading_prefix = false) raw
    /\ match rest with
       | [] => True
       | next :: _ => Str.startswith next heading_prefix = true
       end.
Proof.
  intros Hex.
  destruct (find_start header_re text 0) as [start|] eqn:Hfind.
  - destruct (find_start_some _ _ _ Hfind)
      as (before & heading & tl & -> & -> & Hbefore & Hheading).
    destruct (until_heading_spec tl) as (rest & Htl & Hraw & Hrest).
    exists (List.length before), before, heading, (until_heading tl), rest.
    repeat split; auto.
    + now rewrite <- Htl.
    + apply section_lines_after.
  - exfalso. apply find_start_none in Hfind.
    apply Exists_exists in Hex as (l & Hin & Hl).
    rewrite Forall_forall in Hfind. specialize (Hfind l Hin). congruence.
Qed.

Lemma raw_section_between_headings_witness :
  exists start before heading raw rest,
    find_start (header_regex (lit "0.2.4"))
               (List.map lit demo_doc) 0 = Some start
    /\ List.map lit demo_doc = before ++ heading :: raw ++ rest
    /\ List.length before = start
    /\ Forall (fun l => Re.matches (header_regex (lit "0.2.4")) l = false)
              before
    /\ Re.matches (header_regex (lit "0.2.4")) heading = true
    /\ section_lines (List.map lit demo_doc) start = raw
    /\ Forall (fun l => Str.startswith l heading_prefix = false) raw
    /\ match rest with
       | [] => True
       | next :: _ => Str.startswith next heading_prefix = true
       end.
Proof.
  apply (raw_section_between_headings
           (header_regex (lit "0.2.4")) (List.map lit demo_doc)).
  apply Exists_cons_hd. vm_compute. reflexivity.
Defined.

(** C3: the section comes from the first line that matches the heading of
    the identifier.  When a later line matches it too, the run on the
    whole document is the run on the document cut off before that later
    heading: same output text, same exit status. *)
Theorem first_matching_heading_wins
        (enc : encoding) (w w' : world) (p arg content content' : str)
        (a b : list str) (later : str) :
  argv w = [p; arg] ->
  argv w' = [p; arg] ->
  files w "CHANGELOG.md" = Some content ->
  files w' "CHANGELOG.md" = Some content' ->
  Str.splitlines content = a ++ later :: b ->
  Str.splitlines content' = a ->
  Exists (spec_heading (Str.strip arg)) a ->
  spec_heading (Str.strip arg) later ->
  run enc w = run enc w'.
Proof.
  intros Hw Hw' Hf Hf' Hdoc Hdoc' Hfirst Hlater.
  rewrite (run_two_args enc _ _ _ Hw), (run_two_args enc _ _ _ Hw').
  rewrite Hf, Hf', Hdoc, Hdoc'.
  destruct (Str.strip arg) as [|c v] eqn:Hv; [reflexivity|].
  set (version := c :: v) in *.
  destruct (find_start (header_regex version) a 0) as [start|] eqn:Hfind.
  - rewrite (find_start_app _ _ (later :: b) _ Hfind).
    destruct (find_start_some _ _ _ Hfind)
      as (before & heading & mid & -> & -> & _ & _).
    cbn [Nat.add]. rewrite <- app_assoc. cbn [app].
    rewrite !section_lines_after, until_heading_app; [reflexivity|].
    simpl. eapply spec_heading_is_heading_line; eassumption.
  - exfalso. apply find_start_none in Hfind.
    apply Exists_exists in Hfirst as (l & Hin & Hl).
    rewrite Forall_forall in Hfind. specialize (Hfind l Hin).
    apply header_regex_matches in Hl. congruence.
Qed.

Lemma first_matching_heading_wins_witness :
  run utf_8 (demo_world "1.0" doc_twice)
  = run utf_8 (demo_world "1.0" (firstn 4 doc_twice)).
Proof.
  apply (first_matching_heading_wins utf_8
           (demo_world "1.0" doc_twice)
           (demo_world "1.0" (firstn 4 doc_twice))
           (lit "extract_changelog.py") (lit "1.0")
           (lines_text doc_twice)
           (lines_text (firstn 4 doc_twice))
           (List.map lit (firstn 4 doc_twice))
           [lit "dropped"]
           (lit "## [1.0] - first try"));
    try reflexivity.
  - apply Exists_cons_tl, Exists_cons_hd.
    apply spec_headingb_true. vm_compute. reflexivity.
  - apply spec_headingb_true. vm_compute. reflexivity.
Defined.

(** C4: trimming a raw section takes lines off its front while they are
    empty or hold only whitespace, then off its back under the same
    condition, and keeps what lies between, blank lines included, in
    order: the raw section is a run of blank lines, the trimmed lines,
    and a run of blank lines; the trimmed lines begin and end with a line
    that is not blank, unless none is left.  A raw section of blank lines
    only is trimmed to nothing. *)
Theorem trim_blank_keeps_interior (raw : list str) :
  let whitespace_only (l : str) := Forall (fun c => Str.isspace c = true) l in
  (exists front back,
      raw = front ++ trim_blank raw ++ back
      /\ Forall whitespace_only front
      /\ Forall whitespace_only back
      /\ pop_leading_blank raw = trim_blank raw ++ back
      /\ (trim_blank raw = [] /\ back = []
          \/ ~ whitespace_only (hd [] (trim_blank raw))
             /\ ~ whitespace_only (last (trim_blank raw) [])))
  /\ (Forall whitespace_only raw -> trim_blank raw = []).
Proof.
  intros whitespace_only.
  assert (Hall : forall ls, Forall (fun l => blank l = true) ls
                            <-> Forall whitespace_only ls).
  { intros ls. rewrite !Forall_forall. split; intros H l Hin.
    - apply blank_whitespace_only, H, Hin.
    - apply blank_whitespace_only, H, Hin. }
  assert (Hnot : forall l, blank l = false -> ~ whitespace_only l).
  { intros l Hl Hw. apply blank_whitespace_only in Hw. congruence. }
  split.
  - destruct (trim_blank_spec raw)
      as (front & back & Hraw & Hfront & Hback & Hlead & Hends).
    exists front, back. repeat split; auto.
    + now apply Hall.
    + now apply Hall.
    + destruct Hends as [[? ?]|[? ?]]; [left|right]; split; auto.
  - intros H. apply trim_blank_all_blank. now apply Hall.
Qed.

(** C5: a run that returns 0 writes to standard output the trimmed lines
    of the section joined by single newlines, without the whitespace at
    the end of the joined text, and then one newline.  When no line is
    left after trimming, the output is the newline alone. *)
Theorem output_is_joined_lines_and_newline
        (enc : encoding) (w : world) (t : list event) :
  run enc w = (t, inr 0%Z) ->
  exists content header_re start,
    files w "CHANGELOG.md" = Some content
    /\ Re.compile (header_pattern (Str.strip (nth 1 (argv w) [])))
       = Some header_re
    /\ find_start header_re (Str.splitlines content) 0 = Some start
    /\ let body_lines :=
         trim_blank (section_lines (Str.splitlines content) start) in
       exists kept ws,
         newline_joined body_lines = kept ++ ws
         /\ Forall (fun c => Str.isspace c = true) ws
         /\ (kept = [] \/ Str.isspace (last kept 0%N) = false)
         /\ written Stdout t = kept ++ nl
         /\ (body_lines = [] -> written Stdout t = nl).
Proof.
  intros Hrun.
  destruct (run_success enc _ _ Hrun)
    as (content & start & Hv & Hf & Hfind & Henc & ->).
  exists content, (header_regex (Str.strip (nth 1 (argv w) []))), start.
  repeat split; auto using compile_header_pattern.
  cbv zeta.
  set (body_lines := trim_blank (section_lines (Str.splitlines content) start)).
  destruct (rstrip_spec (Str.join nl body_lines)) as (ws & Hj & Hws & Hlast).
  rewrite join_newline_joined in Hj at 1.
  exists (Str.rstrip (Str.join nl body_lines)), ws.
  repeat split; auto.
  - apply Forall_forall. now apply forallb_forall.
  - cbn. now rewrite app_nil_r.
  - intros ->. reflexivity.
Qed.

Lemma output_is_joined_lines_and_newline_witness :
  exists content header_re start,
    files (demo_world "1.0" doc_padded) "CHANGELOG.md" = Some content
    /\ Re.compile
         (header_pattern
            (Str.strip (nth 1 (argv (demo_world "1.0" doc_padded)) [])))
       = Some header_re
    /\ find_start header_re (Str.splitlines content) 0 = Some start
    /\ let body_lines :=
         trim_blank (section_lines (Str.splitlines content) start) in
       exists kept ws,
         newline_joined body_lines = kept ++ ws
         /\ Forall (fun c => Str.isspace c = true) ws
         /\ (kept = [] \/ Str.isspace (last kept 0%N) = false)
         /\ written Stdout
              [ReadText "CHANGELOG.md";
               Write Stdout (lit "a" ++ nl ++ nl ++ lit "b" ++ nl)]
            = kept ++ nl
         /\ (body_lines = []
             -> written Stdout
                  [ReadText "CHANGELOG.md";
                   Write Stdout (lit "a" ++ nl ++ nl ++ lit "b" ++ nl)]
                = nl).
Proof.
  apply (output_is_joined_lines_and_newline
           utf_8 (demo_world "1.0" doc_padded)
           [ReadText "CHANGELOG.md";
            Write Stdout (lit "a" ++ nl ++ nl ++ lit "b" ++ nl)]).
  vm_compute. reflexivity.
Defined.

(** C6: with an argument count other than one, or with a version that is
    empty or only whitespace once trimmed, the run returns 2 after writing
    a diagnostic to standard error; the changelog is not read, and nothing
    goes to standard output. *)
Theorem usage_error_before_reading (enc : encoding) (w : world) :
  List.length (argv w) <> 2 \/ Str.strip (nth 1 (argv w) []) = [] ->
  exists t msg,
    run enc w = (t, inr 2%Z)
    /\ written Stderr t = msg ++ nl
    /\ msg <> []
    /\ reads t = []
    /\ written Stdout t = [].
Proof.
  intros H. rewrite run_unfold.
  destruct (List.length (argv w) =? 2) eqn:Hn; cbn [negb].
  - destruct H as [H|H]; [apply Nat.eqb_eq in Hn; contradiction|].
    rewrite H. eexists _, (lit "Version cannot be empty").
    repeat split; discriminate.
  - eexists _, (lit "Usage: extract_changelog.py <version>").
    repeat split; discriminate.
Qed.

Lemma usage_error_before_reading_witness :
  exists t msg,
    run utf_8 (demo_world "   " demo_doc) = (t, inr 2%Z)
    /\ written Stderr t = msg ++ nl
    /\ msg <> []
    /\ reads t = []
    /\ written Stdout t = [].
Proof.
  apply (usage_error_before_reading utf_8 (demo_world "   " demo_doc)).
  right. reflexivity.
Defined.

(** C7: when no line of the document is a heading of the version, the
    run returns 1, its diagnostic on standard error names the version, and
    nothing goes to standard output. *)
Theorem missing_version_exits_1
        (enc : encoding) (w : world) (p arg content : str) :
  argv w = [p; arg] ->
  Str.strip arg <> [] ->
  files w "CHANGELOG.md" = Some content ->
  Forall (fun l => ~ spec_heading (Str.strip arg) l) (Str.splitlines content) ->
  exists t,
    run enc w = (t, inr 1%Z)
    /\ written Stderr t
       = lit "Could not find CHANGELOG section for version "
         ++ Str.strip arg ++ nl
    /\ written Stdout t = [].
Proof.
  intros Hw Hv Hf Hnone. rewrite (run_two_args enc _ _ _ Hw), Hf.
  destruct (Str.strip arg) as [|c v]; [contradiction|].
  replace (find_start (header_regex (c :: v)) (Str.splitlines content) 0)
    with (@None nat).
  - eexists. split; [reflexivity|]. split; [|reflexivity].
    cbn [written flat_map app]. now rewrite app_nil_r.
  - symmetry. apply find_start_none.
    eapply Forall_impl; [|exact Hnone]. cbv beta. intros l Hl.
    destruct (Re.matches (header_regex (c :: v)) l) eqn:E; [|reflexivity].
    apply header_regex_matches in E. contradiction.
Qed.

Lemma missing_version_exits_1_witness :
  exists t,
    run utf_8 (demo_world "9.9" demo_doc) = (t, inr 1%Z)
    /\ written Stderr t
       = lit "Could not find CHANGELOG section for version "
         ++ Str.strip (lit "9.9") ++ nl
    /\ written Stdout t = [].
Proof.
  apply (missing_version_exits_1 utf_8 (demo_world "9.9" demo_doc)
           (lit "extract_changelog.py") (lit "9.9") (lines_text demo_doc));
    try reflexivity.
  - vm_compute. discriminate.
  - repeat constructor; intros H; apply spec_headingb_true in H;
      vm_compute in H; discriminate.
Defined.




(** C9: whitespace around the identifier changes nothing.  For an
    identifier that is not empty once trimmed, the run on the identifier
    and the run on its trimmed form, over the same document, are the
    same. *)
Theorem identifier_is_trimmed (enc : encoding) (w w' : world) (p p' arg : str) :
  argv w = [p; arg] ->
  argv w' = [p'; Str.strip arg] ->
  files w "CHANGELOG.md" = files w' "CHANGELOG.md" ->
  Str.strip arg <> [] ->
  run enc w = run enc w'.
Proof.
  intros H H' Hf _.
  now rewrite (run_two_args enc _ _ _ H), (run_two_args enc _ _ _ H'), Hf, strip_idem.
Qed.

Lemma identifier_is_trimmed_witness :
  run utf_8 (demo_world "  0.2.4	" demo_doc) = run utf_8 (demo_world "0.2.4" demo_doc).
Proof.
  apply (identifier_is_trimmed utf_8
           (demo_world "  0.2.4	" demo_doc) (demo_world "0.2.4" demo_doc)
           (lit "extract_changelog.py") (lit "extract_changelog.py")
           (lit "  0.2.4	"));
    try reflexivity.
  vm_compute. discriminate.
Defined.

Section Output.

Import Str.

(** The lines of the text written for the body lines [init ++ [x]]. *)
Lemma splitlines_render (init : list str) (x : str) :
  Forall no_linebreak (init ++ [x]) ->
  blank x = false ->
  splitlines (render (init ++ [x])) = init ++ [rstrip x].
Proof.
  intros Hnl Hx. unfold render.
  rewrite join_snoc, rstrip_app by now apply blank_false_rstrip.
  rewrite <- app_assoc.
  replace (flat_map (fun l => l ++ nl) init ++ rstrip x ++ nl)
    with (flat_map (fun l => l ++ nl) (init ++ [rstrip x]))
    by (rewrite flat_map_app; simpl; now rewrite app_nil_r).
  apply splitlines_terminated.
  apply Forall_app in Hnl as [Hi Hx'].
  apply Forall_app; split; [exact Hi|].
  constructor; [|constructor].
  apply no_linebreak_rstrip. now inversion Hx'.
Qed.

Lemma rstrip_not_heading (x : str) :
  is_heading_line x = false -> is_heading_line (rstrip x) = false.
Proof.
  intros H. destruct (is_heading_line (rstrip x)) eqn:E; [|reflexivity].
  destruct (rstrip_prefix x) as (ws & Hx).
  unfold is_heading_line in *.
  rewrite Hx, (startswith_app_l _ ws _ E) in H. discriminate.
Qed.

End Output.

(** C10: no line of the text that a run returning 0 writes to standard
    output starts with ["## ["]: the heading that was matched is not in
    it, and no heading after it is. *)
Theorem output_has_no_heading_line
        (enc : encoding) (w : world) (t : list event) :
  run enc w = (t, inr 0%Z) ->
  Forall (fun l => Str.startswith l heading_prefix = false)
         (Str.splitlines (written Stdout t)).
Proof.
  intros Hrun.
  destruct (run_success enc _ _ Hrun)
    as (content & start & _ & _ & Hfind & _ & ->).
  cbn [written flat_map app]. rewrite app_nil_r.
  pose proof (splitlines_no_linebreak content) as Hnl.
  destruct (find_start_some _ _ _ Hfind)
    as (before & heading & tl & Htext & -> & _ & _).
  rewrite Htext in *. cbn [Nat.add]. rewrite section_lines_after.
  destruct (until_heading_spec tl) as (rest & Htl & Hraw & _).
  destruct (trim_blank_spec (until_heading tl))
    as (front & back & Hsplit & _ & _ & _ & Hends).
  set (body := trim_blank (until_heading tl)) in *.
  assert (Hbody_nl : Forall no_linebreak body).
  { rewrite Htl, Hsplit in Hnl.
    apply Forall_app in Hnl as [_ Hnl]. inversion Hnl as [|? ? _ Hnl']; subst.
    apply Forall_app in Hnl' as [Hnl' _].
    apply Forall_app in Hnl' as [_ Hnl'].
    now apply Forall_app in Hnl' as [Hnl' _]. }
  assert (Hbody : Forall (fun l => is_heading_line l = false) body).
  { rewrite Hsplit in Hraw.
    apply Forall_app in Hraw as [_ Hraw].
    now apply Forall_app in Hraw as [Hraw _]. }
  destruct Hends as [[Hnil _]|[Hhd Hlast]].
  - rewrite Hnil. repeat constructor.
  - assert (Hne : body <> []) by (intros E; rewrite E in Hhd; discriminate).
    destruct (exists_last Hne) as (init & x & Hx).
    rewrite Hx in *. rewrite last_last in Hlast.
    rewrite splitlines_render by assumption.
    apply Forall_app in Hbody as [Hinit Hx'].
    apply Forall_app; split; [exact Hinit|].
    constructor; [|constructor].
    apply rstrip_not_heading. now inversion Hx'.
Qed.

Lemma output_has_no_heading_line_witness :
  Forall (fun l => Str.startswith l heading_prefix = false)
         (Str.splitlines
            (written Stdout [ReadText "CHANGELOG.md";
                             Write Stdout (lit "Fixed a bug." ++ nl)])).
Proof.
  apply (output_has_no_heading_line utf_8
           (demo_world "0.2.4" demo_doc)
           [ReadText "CHANGELOG.md"; Write Stdout (lit "Fixed a bug." ++ nl)]).
  vm_compute. reflexivity.
Defined.

(* ================================================================== *)
(** ** Further properties of the script *)
(* ================================================================== *)

Lemma argv_two (w : world) :
  (List.length (argv w) =? 2) = true -> exists p arg, argv w = [p; arg].
Proof.
  intros H. apply Nat.eqb_eq in H.
  destruct (argv w) as [|p [|arg [|x l]]]; try discriminate. eauto.
Qed.

Lemma find_start_found_iff (version : str) (text : list str) :
  (exists start, find_start (header_regex version) text 0 = Some start)
  <-> Exists (spec_heading version) text.
Proof.
  split.
  - intros (start & H).
    destruct (find_start_some _ _ _ H) as (before & heading & rest & -> & _ & _ & Hm).
    apply Exists_app. right. apply Exists_cons_hd.
    now apply header_regex_matches.
  - intros H.
    destruct (find_start (header_regex version) text 0) eqn:E; [eauto|].
    exfalso. apply find_start_none in E.
    apply Exists_exists in H as (l & Hin & Hl).
    rewrite Forall_forall in E. specialize (E l Hin).
    apply header_regex_matches in Hl. congruence.
Qed.

Lemma find_start_missing_iff (version : str) (text : list str) :
  find_start (header_regex version) text 0 = None
  <-> Forall (fun l => ~ spec_heading version l) text.
Proof.
  rewrite find_start_none. rewrite !Forall_forall.
  split; intros H l Hin; specialize (H l Hin).
  - intros Hl. apply header_regex_matches in Hl. congruence.
  - destruct (Re.matches (header_regex version) l) eqn:E; [|reflexivity].
    apply header_regex_matches in E. contradiction.
Qed.

Lemma render_not_empty (body_lines : list str) : render body_lines <> [].
Proof.
  unfold render. intros H. apply app_eq_nil in H as [_ H]. discriminate.
Qed.

(** X1: with one argument that is not blank, a changelog that cannot be
    read ends the run in the exception of [read_text], after the attempt to
    read it and with nothing written to either stream: no diagnostic of
    the script's own, no partial output. *)
Theorem unreadable_changelog_raises (enc : encoding) (w : world) (p arg : str) :
  argv w = [p; arg] ->
  Str.strip arg <> [] ->
  files w "CHANGELOG.md" = None ->
  exists t,
    run enc w = (t, inl OSError)
    /\ reads t = ["CHANGELOG.md"%string]
    /\ written Stdout t = []
    /\ written Stderr t = [].
Proof.
  intros Hw Hv Hf. rewrite (run_two_args enc _ _ _ Hw), Hf.
  destruct (Str.strip arg); [contradiction|].
  eexists; repeat split.
Qed.

Lemma unreadable_changelog_raises_witness :
  exists t,
    run utf_8 {| argv := [lit "extract_changelog.py"; lit "0.2.4"];
           files := fun _ => None |} = (t, inl OSError)
    /\ reads t = ["CHANGELOG.md"%string]
    /\ written Stdout t = []
    /\ written Stderr t = [].
Proof.
  apply (unreadable_changelog_raises utf_8
           {| argv := [lit "extract_changelog.py"; lit "0.2.4"];
              files := fun _ => None |}
           (lit "extract_changelog.py") (lit "0.2.4")).
  - reflexivity.
  - vm_compute. discriminate.
  - reflexivity.
Defined.

(** X2: whatever the arguments and the file store, [re.compile] does not
    reject the pattern built from the version, so a run never ends in
    [re.error]; and a run that returns, returns 0, 1 or 2. *)
Theorem run_never_raises_re_error (enc : encoding) (w : world) :
  snd (run enc w) <> inl ReError
  /\ forall code, snd (run enc w) = inr code ->
                  code = 0%Z \/ code = 1%Z \/ code = 2%Z.
Proof.
  rewrite run_unfold.
  destruct (negb (List.length (argv w) =? 2)).
  { split; [discriminate|]. intros code H; injection H as <-; auto. }
  destruct (Str.strip (nth 1 (argv w) [])).
  { split; [discriminate|]. intros code H; injection H as <-; auto. }
  destruct (files w "CHANGELOG.md").
  2:{ split; [discriminate|]. intros code H; discriminate. }
  destruct (find_start _ _ 0); cbv zeta; [destruct (forallb enc _)|];
    (split; [discriminate|]; intros code H;
     try discriminate; injection H as <-; auto).
Qed.

(** X3: the two streams tell the statuses apart.  Text goes to standard
    output exactly in the runs that return 0, and to standard error
    exactly in the runs that return 1 or 2; no run writes to both. *)
Theorem streams_follow_status (enc : encoding) (w : world) :
  (written Stdout (fst (run enc w)) <> [] <-> snd (run enc w) = inr 0%Z)
  /\ (written Stderr (fst (run enc w)) <> []
      <-> snd (run enc w) = inr 1%Z \/ snd (run enc w) = inr 2%Z)
  /\ (written Stdout (fst (run enc w)) = []
      \/ written Stderr (fst (run enc w)) = []).
Proof.
  rewrite run_unfold.
  destruct (negb (List.length (argv w) =? 2));
    [|destruct (Str.strip (nth 1 (argv w) []));
      [|destruct (files w "CHANGELOG.md");
        [destruct (find_start _ _ 0);
         [cbv zeta; destruct (forallb enc _)|]|]]];
    cbn [fst snd written flat_map app]; rewrite ?app_nil_r;
    (split; [|split]).
  all: try (right; reflexivity).
  all: try (left; reflexivity).
  all: split; intros H.
  all: try congruence.
  all: try (destruct H; discriminate).
  all: try discriminate.
  all: try (right; reflexivity).
  all: try (left; reflexivity).
  apply render_not_empty.
Qed.

(** X4: the only file a run reads is CHANGELOG.md, once, and it reads it
    in every run but those that return 2. *)
Theorem reads_only_the_changelog (enc : encoding) (w : world) :
  (snd (run enc w) = inr 2%Z /\ reads (fst (run enc w)) = [])
  \/ (snd (run enc w) <> inr 2%Z
      /\ reads (fst (run enc w)) = ["CHANGELOG.md"%string]).
Proof.
  rewrite run_unfold.
  destruct (negb (List.length (argv w) =? 2)); [left; split; reflexivity|].
  destruct (Str.strip (nth 1 (argv w) [])); [left; split; reflexivity|].
  right.
  destruct (files w "CHANGELOG.md"); [|split; [discriminate|reflexivity]].
  destruct (find_start _ _ 0); cbv zeta; [destruct (forallb enc _)|];
    split; try discriminate; reflexivity.
Qed.


(** X6: a run returns 1 exactly when it got one argument that is not
    blank, the changelog can be read, and no line of it is a heading of
    the trimmed version. *)
Theorem returns_1_iff_no_heading (enc : encoding) (w : world) :
  snd (run enc w) = inr 1%Z
  <-> exists p arg content,
        argv w = [p; arg]
        /\ Str.strip arg <> []
        /\ files w "CHANGELOG.md" = Some content
        /\ Forall (fun l => ~ spec_heading (Str.strip arg) l)
                  (Str.splitlines content).
Proof.
  split.
  - rewrite run_unfold.
    destruct (List.length (argv w) =? 2) eqn:Hn; [|discriminate].
    destruct (argv_two w Hn) as (p & arg & Hw). rewrite Hw.
    cbn [negb nth].
    destruct (Str.strip arg) as [|c v] eqn:Hv; [discriminate|].
    destruct (files w "CHANGELOG.md") as [content|] eqn:Hf; [|discriminate].
    destruct (find_start _ _ 0) as [start|] eqn:E.
    { cbv zeta. destruct (forallb enc _); discriminate. }
    intros _. exists p, arg, content. rewrite Hv.
    repeat split; auto; [discriminate|].
    now apply find_start_missing_iff.
  - intros (p & arg & content & Hw & Hv & Hf & Hnone).
    rewrite (run_two_args enc _ _ _ Hw), Hf.
    destruct (Str.strip arg) as [|c v]; [contradiction|].
    apply find_start_missing_iff in Hnone. now rewrite Hnone.
Qed.



Lemma not_heading_no_match (version : str) (lines : list str) :
  Forall (fun l => ~ spec_heading version l) lines ->
  Forall (fun l => Re.matches (header_regex version) l = false) lines.
Proof.
  intros H. eapply Forall_impl; [|exact H]. cbv beta. intros l Hl.
  destruct (Re.matches (header_regex version) l) eqn:E; [|reflexivity].
  apply header_regex_matches in E. contradiction.
Qed.

(** X7: what stands before the heading does not count.  Lines at the top
    of the document, none of them a heading of the version, can be taken
    away without any change to the run: same text written, same status,
    found or not. *)
Theorem lines_before_heading_are_ignored
        (enc : encoding) (w w' : world) (p arg content content' : str)
        (before rest : list str) :
  argv w = [p; arg] ->
  argv w' = [p; arg] ->
  files w "CHANGELOG.md" = Some content ->
  files w' "CHANGELOG.md" = Some content' ->
  Str.splitlines content = before ++ rest ->
  Str.splitlines content' = rest ->
  Forall (fun l => ~ spec_heading (Str.strip arg) l) before ->
  run enc w = run enc w'.
Proof.
  intros Hw Hw' Hf Hf' Hdoc Hdoc' Hbefore.
  rewrite (run_two_args enc _ _ _ Hw), (run_two_args enc _ _ _ Hw').
  rewrite Hf, Hf', Hdoc, Hdoc'.
  destruct (Str.strip arg) as [|c v]; [reflexivity|].
  apply not_heading_no_match in Hbefore.
  destruct (find_start (header_regex (c :: v)) rest 0) as [start|] eqn:E.
  - destruct (find_start_some _ _ _ E)
      as (b2 & heading & tl & -> & -> & Hb2 & Hm).
    rewrite app_assoc.
    rewrite find_start_first
      by (try apply Forall_app; try split; assumption).
    cbn [Nat.add]. now rewrite !section_lines_after.
  - apply find_start_none in E.
    replace (find_start (header_regex (c :: v)) (before ++ rest) 0)
      with (@None nat); [reflexivity|].
    symmetry. apply find_start_none. apply Forall_app. now split.
Qed.

Lemma lines_before_heading_are_ignored_witness :
  run utf_8 (demo_world "0.2.3" demo_doc) = run utf_8 (demo_world "0.2.3" (skipn 3 demo_doc)).
Proof.
  apply (lines_before_heading_are_ignored utf_8
           (demo_world "0.2.3" demo_doc)
           (demo_world "0.2.3" (skipn 3 demo_doc))
           (lit "extract_changelog.py") (lit "0.2.3")
           (lines_text demo_doc) (lines_text (skipn 3 demo_doc))
           (List.map lit (firstn 3 demo_doc))
           (List.map lit (skipn 3 demo_doc)));
    try reflexivity.
  repeat constructor; intros H; apply spec_headingb_true in H;
    vm_compute in H; discriminate.
Defined.

(** X8: what stands after the section does not count.  When the document
    is [a ++ b], a heading of the version is in [a], and [b] is empty or
    starts with a line that starts with ["## ["], then [b] can be replaced
    by any other such text without any change to the run. *)
Theorem lines_after_section_are_ignored
        (enc : encoding) (w w' : world) (p arg content content' : str)
        (a b b' : list str) :
  argv w = [p; arg] ->
  argv w' = [p; arg] ->
  files w "CHANGELOG.md" = Some content ->
  files w' "CHANGELOG.md" = Some content' ->
  Str.splitlines content = a ++ b ->
  Str.splitlines content' = a ++ b' ->
  Exists (spec_heading (Str.strip arg)) a ->
  at_boundary b ->
  at_boundary b' ->
  run enc w = run enc w'.
Proof.
  intros Hw Hw' Hf Hf' Hdoc Hdoc' Hfirst Hb Hb'.
  rewrite (run_two_args enc _ _ _ Hw), (run_two_args enc _ _ _ Hw').
  rewrite Hf, Hf', Hdoc, Hdoc'.
  destruct (Str.strip arg) as [|c v]; [reflexivity|].
  apply find_start_found_iff in Hfirst as (start & Hfind).
  rewrite !(find_start_app _ _ _ _ Hfind).
  destruct (find_start_some _ _ _ Hfind)
    as (before & heading & mid & -> & -> & _ & _).
  cbn [Nat.add]. rewrite <- !app_assoc. cbn [app].
  now rewrite !section_lines_after, !until_heading_app.
Qed.

Lemma lines_after_section_are_ignored_witness :
  run utf_8 (demo_world "0.2.4" demo_doc)
  = run utf_8 (demo_world "0.2.4" (firstn 3 demo_doc ++ ["## [Unreleased"%string])).
Proof.
  apply (lines_after_section_are_ignored utf_8
           (demo_world "0.2.4" demo_doc)
           (demo_world "0.2.4" (firstn 3 demo_doc ++ ["## [Unreleased"%string]))
           (lit "extract_changelog.py") (lit "0.2.4")
           (lines_text demo_doc)
           (lines_text (firstn 3 demo_doc ++ ["## [Unreleased"%string]))
           (List.map lit (firstn 3 demo_doc))
           (List.map lit (skipn 3 demo_doc))
           [lit "## [Unreleased"]);
    try reflexivity.
  apply Exists_cons_hd. apply spec_headingb_true. vm_compute. reflexivity.
Defined.

(** X9: the output holds lines of the document and nothing else.  In a
    run that returns 0 the document is [pre ++ body ++ post], with the
    heading in [pre]; either [body] is empty and the output is a single
    newline, or the lines of the output are the lines of [body], the last
    one without the whitespace at its end. *)
Theorem output_lines_are_document_lines
        (enc : encoding) (w : world) (t : list event) :
  run enc w = (t, inr 0%Z) ->
  exists content pre body post,
    files w "CHANGELOG.md" = Some content
    /\ Str.splitlines content = pre ++ body ++ post
    /\ pre <> []
    /\ (body = [] /\ written Stdout t = nl
        \/ exists init x,
             body = init ++ [x]
             /\ Str.splitlines (written Stdout t) = init ++ [Str.rstrip x]).
Proof.
  intros Hrun.
  destruct (run_success enc _ _ Hrun)
    as (content & start & _ & Hf & Hfind & _ & ->).
  cbn [written flat_map app]. rewrite app_nil_r.
  pose proof (splitlines_no_linebreak content) as Hnl.
  destruct (find_start_some _ _ _ Hfind)
    as (before & heading & tl & Htext & -> & _ & _).
  rewrite Htext in *. cbn [Nat.add]. rewrite section_lines_after.
  destruct (until_heading_spec tl) as (rest & Htl & _ & _).
  destruct (trim_blank_spec (until_heading tl))
    as (front & back & Hsplit & _ & _ & _ & Hends).
  set (body := trim_blank (until_heading tl)) in *.
  exists content, (before ++ heading :: front), body, (back ++ rest).
  split; [exact Hf|]. split.
  { rewrite Htext. rewrite Htl at 1. rewrite Hsplit.
    rewrite <- !app_assoc. cbn [app]. rewrite <- ?app_assoc. reflexivity. }
  split; [now destruct before|].
  destruct Hends as [[Hnil _]|[Hhd Hlast]].
  - left. rewrite Hnil. split; reflexivity.
  - right.
    assert (Hne : body <> []) by (intros E; rewrite E in Hhd; discriminate).
    destruct (exists_last Hne) as (init & x & Hx).
    exists init, x. split; [exact Hx|].
    rewrite Hx in *. rewrite last_last in Hlast.
    apply splitlines_render; [|exact Hlast].
    rewrite Htl, Hsplit in Hnl.
    apply Forall_app in Hnl as [_ Hnl]. inversion Hnl as [|? ? _ Hnl']; subst.
    apply Forall_app in Hnl' as [Hnl' _].
    apply Forall_app in Hnl' as [_ Hnl'].
    now apply Forall_app in Hnl' as [Hnl' _].
Qed.

Lemma output_lines_are_document_lines_witness :
  exists content pre body post,
    files (demo_world "0.2.4" demo_doc) "CHANGELOG.md" = Some content
    /\ Str.splitlines content = pre ++ body ++ post
    /\ pre <> []
    /\ (body = []
        /\ written Stdout [ReadText "CHANGELOG.md";
                           Write Stdout (lit "Fixed a bug." ++ nl)] = nl
        \/ exists init x,
             body = init ++ [x]
             /\ Str.splitlines
                  (written Stdout [ReadText "CHANGELOG.md";
                                   Write Stdout (lit "Fixed a bug." ++ nl)])
                = init ++ [Str.rstrip x]).
Proof.
  apply (output_lines_are_document_lines utf_8
           (demo_world "0.2.4" demo_doc)
           [ReadText "CHANGELOG.md"; Write Stdout (lit "Fixed a bug." ++ nl)]).
  vm_compute. reflexivity.
Defined.

Lemma first_occurrence_unique (x : char) (v v' r r' : str) :
  ~ In x v -> ~ In x v' -> v ++ x :: r = v' ++ x :: r' -> v = v'.
Proof.
  revert v'; induction v as [|c v IH]; intros [|c' v'] Hv Hv' E;
    cbn [app] in E.
  - reflexivity.
  - injection E as -> _. exfalso. apply Hv'. now left.
  - injection E as -> _. exfalso. apply Hv. now left.
  - injection E as -> E. f_equal. apply IH; auto.
    + intros H. apply Hv. now right.
    + intros H. apply Hv'. now right.
Qed.

(** X10: a line is the heading of one version at most.  When the
    patterns of two versions, neither of which holds a ["]"], both accept
    a line, the two versions are the same text: the section of 1.2 is not
    taken for that of 1.2.3, nor the other way round. *)
Theorem heading_names_one_version
        (version version' line : str) (header_re header_re' : Re.regex) :
  Re.compile (header_pattern version) = Some header_re ->
  Re.compile (header_pattern version') = Some header_re' ->
  ~ In (ch "]") version ->
  ~ In (ch "]") version' ->
  Re.matches header_re line = true ->
  Re.matches header_re' line = true ->
  version = version'.
Proof.
  intros Hc Hc' Hv Hv' Hm Hm'.
  rewrite compile_header_pattern in Hc, Hc'.
  injection Hc as <-. injection Hc' as <-.
  apply header_regex_matches in Hm as (rest & -> & _).
  apply header_regex_matches in Hm' as (rest' & E & _).
  apply app_inv_head in E.
  exact (first_occurrence_unique _ _ _ _ _ Hv Hv' E).
Qed.

Lemma heading_names_one_version_witness : lit "1.2.3" = lit "1.2.3".
Proof.
  apply (heading_names_one_version
           (lit "1.2.3") (lit "1.2.3") (lit "## [1.2.3] - 2024-01-01")
           (header_regex (lit "1.2.3")) (header_regex (lit "1.2.3")));
    try (vm_compute; reflexivity);
    try (vm_compute; intuition discriminate).
Defined.

(** X11: [re.escape] undoes the pattern syntax.  The escaped form of any
    text compiles, and as a pattern it accepts exactly the strings that
    start with the text. *)
Theorem escaped_text_matches_itself (v s : str) :
  exists r,
    Re.compile (Re.escape v) = Some r
    /\ (Re.matches r s = true <-> Str.startswith s v = true).
Proof.
  exists (fold_right Re.Cat Re.Eps (List.map Re.Lit v)). split.
  - unfold Re.compile.
    rewrite <- (app_nil_r (Re.escape v)), parse_escape.
    cbn [Re.parse Re.alts Re.items Re.empty_frame].
    unfold Re.close, Re.seq_of. cbn [Re.alts Re.items rev app Re.alt_of].
    now rewrite app_nil_r, rev_involutive.
  - rewrite matches_true.
    rewrite <- (app_nil_r (List.map Re.Lit v)), ends_literals.
    cbn [skipn]. destruct (Str.startswith s v); cbn.
    + split; [reflexivity|discriminate].
    + split; [congruence|discriminate].
Qed.

Lemma pop_leading_app_blank (front ls : list str) :
  Forall (fun l => blank l = true) front ->
  pop_leading_blank (front ++ ls) = pop_leading_blank ls.
Proof.
  induction 1 as [|l front Hl _ IH]; [reflexivity|].
  cbn [app pop_leading_blank]. now rewrite Hl.
Qed.

Lemma pop_leading_nil (ls : list str) :
  pop_leading_blank ls = [] <-> Forall (fun l => blank l = true) ls.
Proof.
  induction ls as [|l ls IH]; simpl.
  - split; auto.
  - destruct (blank l) eqn:E.
    + rewrite IH. split; [auto|]. intros H; now inversion H.
    + split; [discriminate|]. intros H; inversion H; congruence.
Qed.

Lemma pop_leading_app_kept (ls back : list str) :
  pop_leading_blank ls <> [] ->
  pop_leading_blank (ls ++ back) = pop_leading_blank ls ++ back.
Proof.
  induction ls as [|l ls IH]; simpl; [congruence|].
  destruct (blank l); [exact IH|reflexivity].
Qed.

Lemma trim_blank_app_blank (front raw back : list str) :
  Forall (fun l => blank l = true) front ->
  Forall (fun l => blank l = true) back ->
  trim_blank (front ++ raw ++ back) = trim_blank raw.
Proof.
  intros Hfront Hback. unfold trim_blank.
  rewrite pop_leading_app_blank by assumption.
  destruct (pop_leading_blank raw) as [|l0 kept] eqn:E.
  - apply pop_leading_nil in E.
    assert (E' : pop_leading_blank (raw ++ back) = []).
    { apply pop_leading_nil. apply Forall_app. now split. }
    now rewrite E'.
  - rewrite pop_leading_app_kept by (rewrite E; discriminate).
    rewrite E, !pop_trailing_as_leading by apply le_n.
    rewrite rev_app_distr, pop_leading_app_blank; [reflexivity|].
    now apply Forall_rev.
Qed.

(** X12: blank lines around a section make no difference.  Lines that
    are empty or hold only whitespace, added before and after the lines of
    a section, leave the trimmed lines as they were. *)
Theorem surrounding_blank_lines_are_dropped (front raw back : list str) :
  Forall (fun l => blank l = true) front ->
  Forall (fun l => blank l = true) back ->
  trim_blank (front ++ raw ++ back) = trim_blank raw.
Proof. exact (trim_blank_app_blank front raw back). Qed.

Lemma surrounding_blank_lines_are_dropped_witness :
  trim_blank ([lit ""; lit "  "] ++ [lit "a"; lit ""; lit "b"] ++ [lit " "])
  = trim_blank [lit "a"; lit ""; lit "b"].
Proof.
  apply (surrounding_blank_lines_are_dropped
           [lit ""; lit "  "] [lit "a"; lit ""; lit "b"] [lit " "]);
    repeat constructor.
Defined.

Lemma blank_not_heading (l : str) :
  blank l = true -> is_heading_line l = false.
Proof.
  intros Hb. destruct (is_heading_line l) eqn:E; [|reflexivity].
  apply startswith_iff in E as (rest & ->).
  apply blank_whitespace_only in Hb. inversion Hb as [|? ? Hc _].
  discriminate Hc.
Qed.

Lemma until_heading_app_blank (tl blanks : list str) :
  Forall (fun l => blank l = true) blanks ->
  exists kept,
    until_heading (tl ++ blanks) = until_heading tl ++ kept
    /\ Forall (fun l => blank l = true) kept.
Proof.
  intros Hb. induction tl as [|l tl (kept & E & Hk)].
  - exists blanks. split; [|exact Hb]. cbn [app until_heading].
    induction Hb as [|b bs Hb1 _ IH]; [reflexivity|].
    cbn [until_heading]. now rewrite (blank_not_heading _ Hb1), IH.
  - cbn [app until_heading]. destruct (is_heading_line l).
    + exists []. split; [reflexivity|constructor].
    + exists kept. rewrite E. split; [reflexivity|exact Hk].
Qed.

(** Blank lines after the last line of the document reach neither loop's
    result. *)
Lemma run_app_blank
        (enc : encoding) (w w' : world) (p arg content content' : str)
      (blanks : list str) :
  argv w = [p; arg] ->
  argv w' = [p; arg] ->
  files w "CHANGELOG.md" = Some content ->
  files w' "CHANGELOG.md" = Some content' ->
  Str.splitlines content' = Str.splitlines content ++ blanks ->
  Forall (fun l => blank l = true) blanks ->
  run enc w = run enc w'.
Proof.
  intros Hw Hw' Hf Hf' Hdoc Hb.
  rewrite (run_two_args enc _ _ _ Hw), (run_two_args enc _ _ _ Hw').
  rewrite Hf, Hf', Hdoc.
  destruct (Str.strip arg) as [|c v]; [reflexivity|].
  set (version := c :: v).
  destruct (find_start (header_regex version) (Str.splitlines content) 0)
    as [start|] eqn:E.
  - rewrite (find_start_app _ _ blanks _ E).
    destruct (find_start_some _ _ _ E)
      as (before & heading & tl & -> & -> & _ & _).
    cbn [Nat.add]. rewrite <- app_assoc. cbn [app].
    rewrite !section_lines_after.
    destruct (until_heading_app_blank tl blanks Hb) as (kept & -> & Hk).
    rewrite <- (trim_blank_app_blank [] (until_heading tl) kept)
      by (assumption || constructor).
    reflexivity.
  - apply find_start_none in E.
    replace (find_start (header_regex version)
                        (Str.splitlines content ++ blanks) 0)
      with (@None nat); [reflexivity|].
    symmetry. apply find_start_none. apply Forall_app. split; [exact E|].
    eapply Forall_impl; [|exact Hb]. cbv beta. intros l Hl.
    destruct (Re.matches (header_regex version) l) eqn:Hm; [|reflexivity].
    apply header_regex_matches, spec_heading_is_heading_line in Hm.
    rewrite (blank_not_heading _ Hl) in Hm. discriminate.
Qed.

(** X13: blank lines at the end of the document change nothing: the run
    on a document and the run on the document with lines that are empty or
    hold only whitespace added after its last line are the same. *)
Theorem blank_lines_at_end_are_ignored
        (enc : encoding) (w w' : world) (p arg content content' : str)
        (blanks : list str) :
  argv w = [p; arg] ->
  argv w' = [p; arg] ->
  files w "CHANGELOG.md" = Some content ->
  files w' "CHANGELOG.md" = Some content' ->
  Str.splitlines content' = Str.splitlines content ++ blanks ->
  Forall (fun l => blank l = true) blanks ->
  run enc w = run enc w'.
Proof. exact (run_app_blank enc w w' p arg content content' blanks). Qed.

Lemma blank_lines_at_end_are_ignored_witness :
  run utf_8 (demo_world "0.2.3" demo_doc)
  = run utf_8 (demo_world "0.2.3" (demo_doc ++ [""; "   "]%string)).
Proof.
  apply (blank_lines_at_end_are_ignored utf_8
           (demo_world "0.2.3" demo_doc)
           (demo_world "0.2.3" (demo_doc ++ [""; "   "]%string))
           (lit "extract_changelog.py") (lit "0.2.3")
           (lines_text demo_doc)
           (lines_text (demo_doc ++ [""; "   "]%string))
           [lit ""; lit "   "]);
    try reflexivity.
  repeat constructor.
Defined.

(** One more newline at the end of a text adds an empty line to its
    lines, or nothing. *)
Lemma splitlines_from_app_nl (n : nat) :
  forall (s cur : str),
    List.length s <= n ->
    exists extra,
      Str.splitlines_from cur (s ++ nl) = Str.splitlines_from cur s ++ extra
      /\ (extra = [] \/ extra = [[]]).
Proof.
  induction n as [|n IH]; intros s cur Hlen.
  - destruct s; [|simpl in Hlen; lia].
    destruct cur; [exists [[]]|exists []]; split; auto.
  - destruct s as [|c rest].
    + destruct cur; [exists [[]]|exists []]; split; auto.
    + simpl in Hlen. cbn [app Str.splitlines_from].
      destruct (Str.islinebreak c).
      * destruct (N.eqb c 13).
        -- destruct rest as [|d rest'].
           ++ exists []. split; [reflexivity|now left].
           ++ cbn [app]. destruct (N.eqb d 10).
              ** destruct (IH rest' [] ltac:(simpl in Hlen; lia))
                   as (extra & -> & He).
                 exists extra. split; [reflexivity|exact He].
              ** destruct (IH (d :: rest') [] ltac:(lia))
                   as (extra & E & He).
                 cbn [app] in E. rewrite E.
                 exists extra. split; [reflexivity|exact He].
        -- destruct (IH rest [] ltac:(lia)) as (extra & -> & He).
           exists extra. split; [reflexivity|exact He].
      * apply IH. lia.
Qed.

(** X14: the newline at the end of the file is optional.  The run on a
    text and the run on the text with one more newline at its end are the
    same. *)
Theorem final_newline_is_optional
        (enc : encoding) (w w' : world) (p arg content : str) :
  argv w = [p; arg] ->
  argv w' = [p; arg] ->
  files w "CHANGELOG.md" = Some content ->
  files w' "CHANGELOG.md" = Some (content ++ nl) ->
  run enc w = run enc w'.
Proof.
  intros Hw Hw' Hf Hf'.
  destruct (splitlines_from_app_nl (List.length content) content []
                                   (le_n _)) as (extra & E & He).
  apply (run_app_blank enc w w' p arg content (content ++ nl) extra);
    auto.
  destruct He as [-> | ->]; repeat constructor.
Qed.

Lemma final_newline_is_optional_witness :
  run utf_8 (demo_world "0.2.3" demo_doc)
  = run utf_8 {| argv := [lit "extract_changelog.py"; lit "0.2.3"];
           files := fun _ => Some (lines_text demo_doc ++ nl) |}.
Proof.
  apply (final_newline_is_optional utf_8
           (demo_world "0.2.3" demo_doc)
           {| argv := [lit "extract_changelog.py"; lit "0.2.3"];
              files := fun _ => Some (lines_text demo_doc ++ nl) |}
           (lit "extract_changelog.py") (lit "0.2.3")
           (lines_text demo_doc));
    reflexivity.
Defined.

(** X15: of the heading line only its being a heading counts.  Putting
    another heading of the same version in the place of one, with another
    date or other text after the bracket, leaves the run as it was. *)
Theorem heading_tail_is_ignored
        (enc : encoding) (w w' : world) (p arg content content' : str)
        (before tl : list str) (heading heading' : str) :
  argv w = [p; arg] ->
  argv w' = [p; arg] ->
  files w "CHANGELOG.md" = Some content ->
  files w' "CHANGELOG.md" = Some content' ->
  Str.splitlines content = before ++ heading :: tl ->
  Str.splitlines content' = before ++ heading' :: tl ->
  spec_heading (Str.strip arg) heading ->
  spec_heading (Str.strip arg) heading' ->
  run enc w = run enc w'.
Proof.
  intros Hw Hw' Hf Hf' Hdoc Hdoc' Hh Hh'.
  rewrite (run_two_args enc _ _ _ Hw), (run_two_args enc _ _ _ Hw').
  rewrite Hf, Hf', Hdoc, Hdoc'.
  destruct (Str.strip arg) as [|c v]; [reflexivity|].
  set (version := c :: v) in *.
  destruct (find_start (header_regex version) before 0) as [start|] eqn:E.
  - rewrite !(find_start_app _ _ _ _ E).
    destruct (find_start_some _ _ _ E)
      as (b1 & g & mid & -> & -> & _ & _).
    cbn [Nat.add]. rewrite <- !app_assoc. cbn [app].
    rewrite !section_lines_after.
    rewrite !until_heading_app; [reflexivity| |];
      simpl; eapply spec_heading_is_heading_line; eassumption.
  - apply find_start_none in E.
    rewrite !find_start_first
      by (assumption || now apply header_regex_matches).
    cbn [Nat.add]. now rewrite !section_lines_after.
Qed.

Lemma heading_tail_is_ignored_witness :
  run utf_8 (demo_world "0.2.3" demo_doc)
  = run utf_8 (demo_world "0.2.3"
           (firstn 3 demo_doc ++ ["## [0.2.3]"; "Initial release."]%string)).
Proof.
  apply (heading_tail_is_ignored utf_8
           (demo_world "0.2.3" demo_doc)
           (demo_world "0.2.3"
              (firstn 3 demo_doc ++ ["## [0.2.3]"; "Initial release."]%string))
           (lit "extract_changelog.py") (lit "0.2.3")
           (lines_text demo_doc)
           (lines_text
              (firstn 3 demo_doc ++ ["## [0.2.3]"; "Initial release."]%string))
           (List.map lit (firstn 3 demo_doc)) [lit "Initial release."]
           (lit "## [0.2.3] - 2023-12-01") (lit "## [0.2.3]"));
    try reflexivity;
    apply spec_headingb_true; vm_compute; reflexivity.
Defined.

Section Encodable.

Variable P : char -> Prop.

Lemma splitlines_from_Forall (n : nat) :
  forall (s cur : str),
    List.length s <= n -> Forall P cur -> Forall P s ->
    Forall (Forall P) (Str.splitlines_from cur s).
Proof.
  induction n as [|n IH]; intros s cur Hlen Hcur Hs.
  - destruct s; [|simpl in Hlen; lia]. simpl.
    destruct cur; constructor; auto.
  - destruct s as [|c rest].
    + simpl. destruct cur; constructor; auto.
    + simpl in Hlen. inversion Hs as [|? ? Hc Hrest]; subst.
      cbn [Str.splitlines_from].
      assert (Hnil : Forall P []) by constructor.
      destruct (Str.islinebreak c).
      * destruct (N.eqb c 13).
        -- destruct rest as [|d rest'].
           ++ constructor; [exact Hcur|]. apply IH; auto. simpl; lia.
           ++ inversion Hrest; subst.
              destruct (N.eqb d 10); constructor; auto;
                apply IH; simpl in *; auto; lia.
        -- constructor; [exact Hcur|]. apply IH; auto. lia.
      * apply IH; [lia| |exact Hrest].
        apply Forall_app; split; [exact Hcur|]. constructor; auto.
Qed.

Lemma join_Forall (sep : str) (parts : list str) :
  Forall P sep -> Forall (Forall P) parts -> Forall P (Str.join sep parts).
Proof.
  intros Hsep. induction 1 as [|x parts Hx Hparts IH]; [constructor|].
  destruct parts as [|y parts]; [exact Hx|].
  change (Str.join sep (x :: y :: parts))
    with (x ++ sep ++ Str.join sep (y :: parts)).
  repeat (apply Forall_app; split); auto.
Qed.

Lemma render_Forall (body_lines : list str) :
  P 10%N -> Forall (Forall P) body_lines -> Forall P (render body_lines).
Proof.
  intros Hnl Hb. unfold render.
  assert (Hn : Forall P nl) by (constructor; [exact Hnl|constructor]).
  apply Forall_app; split; [|exact Hn].
  pose proof (join_Forall nl body_lines Hn Hb) as Hj.
  destruct (rstrip_prefix (Str.join nl body_lines)) as (ws & E).
  rewrite E in Hj. now apply Forall_app in Hj as [Hj _].
Qed.

End Encodable.

(** X17: a standard output that can encode the changelog takes the
    section.  When the encoding of standard output represents every code
    point of the text of CHANGELOG.md, and the newline, no run ends in
    [UnicodeEncodeError]. *)
Theorem encodable_changelog_is_written
        (enc : encoding) (w : world) (content : str) :
  files w "CHANGELOG.md" = Some content ->
  Forall (fun c => enc c = true) content ->
  enc 10%N = true ->
  snd (run enc w) <> inl UnicodeEncodeError.
Proof.
  intros Hf Hcontent Hnl. rewrite run_unfold, Hf.
  destruct (negb (List.length (argv w) =? 2)); [discriminate|].
  destruct (Str.strip (nth 1 (argv w) [])) as [|c v]; [discriminate|].
  destruct (find_start _ _ 0) as [start|] eqn:Hfind; [|discriminate].
  cbv zeta.
  replace (forallb enc (render (trim_blank
                                  (section_lines (Str.splitlines content)
                                                 start))))
    with true; [discriminate|].
  symmetry. apply forallb_forall. apply Forall_forall.
  apply render_Forall; [exact Hnl|].
  pose proof (splitlines_from_Forall (fun c => enc c = true)
                (List.length content) content [] (le_n _)
                (Forall_nil _) Hcontent) as Hlines.
  fold (Str.splitlines content) in Hlines.
  destruct (find_start_some _ _ _ Hfind)
    as (before & heading & tl & Htext & -> & _ & _).
  rewrite Htext in *. cbn [Nat.add]. rewrite section_lines_after.
  destruct (until_heading_spec tl) as (rest & Htl & _ & _).
  destruct (trim_blank_spec (until_heading tl))
    as (front & back & Hsplit & _ & _ & _ & _).
  rewrite Htl, Hsplit in Hlines.
  apply Forall_app in Hlines as [_ Hlines].
  inversion Hlines as [|? ? _ Hl]; subst.
  apply Forall_app in Hl as [Hl _].
  apply Forall_app in Hl as [_ Hl].
  now apply Forall_app in Hl as [Hl _].
Qed.

Lemma encodable_changelog_is_written_witness :
  snd (run utf_8 cafe_world) <> inl UnicodeEncodeError.
Proof.
  apply (encodable_changelog_is_written
           utf_8 cafe_world
           (lit "## [1.0]" ++ nl ++ lit "- caf" ++ [233%N] ++ nl)).
  - reflexivity.
  - repeat constructor.
  - reflexivity.
Defined.
